(** * png-to-webp: a shallow embedding of [compress.py]

    The script lists the [*.png] entries of a directory, runs the external
    [magick] converter on each of them through a process pool, copies the
    time stamps of every source onto its artifact, and optionally removes
    the sources.  The embedding keeps the three functions of the script
    ([run_magick], [process_images], [main]) and models the operating
    system by a finite map from paths to directory entries together with
    the chronological log of the calls the script makes. *)

From stdpp Require Import base strings list gmap.
From Stdlib Require Import ZArith Ascii.

Local Open Scope Z_scope.

(** * Strings: the pieces of [str] and [pathlib] the script uses *)

Module PyStr.

(** [s.endswith(suf)]: the last [len(suf)] characters of [s] are [suf]. *)
Definition endswith (s suf : string) : bool :=
  bool_decide (String.length suf ≤ String.length s)%nat
  && String.eqb
       (String.substring (String.length s - String.length suf) (String.length suf) s)
       suf.

(** [s.rfind(c)]: the highest index holding [c], or [-1]. *)
Fixpoint rfind (c : Ascii.ascii) (s : string) : Z :=
  match s with
  | EmptyString => -1
  | String a s' =>
      let r := rfind c s' in
      if 0 <=? r then r + 1
      else if Ascii.eqb a c then 0 else -1
  end.

(** [repr(s)], with a character of the model read as a code point below
    256: the quote is the apostrophe unless the string holds an apostrophe
    and no double quote; the quote and the backslash are escaped, tab,
    newline and carriage return are written [\t], [\n] and [\r], and every
    other character that is not printable is written [\xhh]. *)
Definition hex2 (c : ascii) : string :=
  let n := nat_of_ascii c in
  String.substring (Nat.div n 16) 1 "0123456789abcdef"
  +:+ String.substring (Nat.modulo n 16) 1 "0123456789abcdef".

Definition printable (c : ascii) : bool :=
  let n := nat_of_ascii c in
  (Nat.leb 32 n && Nat.ltb n 127)
  || (Nat.ltb 160 n && negb (Nat.eqb n 173)).

Fixpoint contains (c : ascii) (s : string) : bool :=
  match s with
  | EmptyString => false
  | String a s' => Ascii.eqb a c || contains c s'
  end.

Definition escape (quote c : ascii) : string :=
  if Ascii.eqb c quote || Ascii.eqb c "\"%char
  then String "\"%char (String c "")
  else if Ascii.eqb c "009"%char then "\t"
  else if Ascii.eqb c "010"%char then "\n"
  else if Ascii.eqb c "013"%char then "\r"
  else if printable c then String c ""
  else "\x" +:+ hex2 c.

Fixpoint escape_all (quote : ascii) (s : string) : string :=
  match s with
  | EmptyString => ""
  | String c s' => escape quote c +:+ escape_all quote s'
  end.

Definition repr (s : string) : string :=
  let quote : ascii :=
    if contains "'"%char s && negb (contains "034"%char s)
    then "034"%char else "'"%char in
  String quote (escape_all quote s) +:+ String quote "".

(** [sep.join(parts)]. *)
Fixpoint join (sep : string) (parts : list string) : string :=
  match parts with
  | [] => ""
  | [p] => p
  | p :: ps => p +:+ sep +:+ join sep ps
  end.

End PyStr.

(** * Paths

    A [pathlib.Path] is the sequence of its components.  [d / f] appends the
    component [f] (the script only ever appends a single file name), [name]
    is the final component and [stem] is the name without its last suffix,
    as [PurePath.stem] computes it: the dot found by [rfind] counts only when
    it is neither the first nor the last character of the name. *)

Abbreviation Path := (list string).

Definition joinpath (d : Path) (f : string) : Path := d ++ [f].
Infix "//" := joinpath (at level 40, left associativity).

Definition name (p : Path) : string := default "" (last p).

Definition stem (p : Path) : string :=
  let nm := name p in
  let i := PyStr.rfind "."%char nm in
  if (0 <? i) && (i <? Z.of_nat (String.length nm) - 1)
  then String.substring 0 (Z.to_nat i) nm
  else nm.

(** [str(p)] *)
Definition str (p : Path) : string := PyStr.join "/" p.

Definition _COMPRESSED_FILE_TYPE : string := "webp".

(** * The file system and the call log *)

(** A directory entry: its kind and the two time stamps [os.stat] reports.
    The script only copies the stamps, so they are kept as opaque
    numbers. *)
Record node := Node {
  is_directory : bool;
  st_atime : Z;
  st_mtime : Z
}.

Abbreviation filesystem := (gmap Path node).

(** What [subprocess.run(..., capture_output=True, text=True)] returns. *)
Record CompletedProcess := {
  returncode : Z;
  stdout : string;
  stderr : string
}.

Inductive exn :=
  | Exception (msg : string)
  | FileNotFoundError (p : string)
  | FileNotFoundErrorNoFilename
  | IsADirectoryError (p : string)
  | NotADirectoryError (p : string)
  | SystemExit (code : Z).

(** [str(e)], as interpolated by the f-strings of the script.  An [OSError]
    shows its [filename] through [repr]; [FileNotFoundErrorNoFilename] is
    the [FileNotFoundError] whose [filename] is [None], as [os.utime]
    raises it. *)
Definition exn_str (e : exn) : string :=
  match e with
  | Exception msg => msg
  | FileNotFoundError p =>
      "[Errno 2] No such file or directory: " +:+ PyStr.repr p
  | FileNotFoundErrorNoFilename => "[Errno 2] No such file or directory"
  | IsADirectoryError p => "[Errno 21] Is a directory: " +:+ PyStr.repr p
  | NotADirectoryError p => "[Errno 20] Not a directory: " +:+ PyStr.repr p
  | SystemExit _ => ""
  end.

(** The exceptions [except Exception] catches: all but [SystemExit]. *)
Definition is_exception (e : exn) : Prop :=
  match e with SystemExit _ => False | _ => True end.

Inductive outcome (A : Type) :=
  | Return (a : A)
  | Raise (e : exn).
Arguments Return {A} a.
Arguments Raise {A} e.

(** The calls of the script that reach outside of it, in the order they are
    made. *)
Inductive event :=
  | EvPrint (line : string)
  | EvExec (command : list string)
  | EvUtime (p : Path) (atime mtime : Z)
  | EvRemove (p : Path).

Record world := World {
  fs : filesystem;
  trace : list event
}.

(** The lines written to standard output. *)
Definition printed (tr : list event) : list string :=
  omap (λ ev, match ev with EvPrint s => Some s | _ => None end) tr.

(** The paths handed to [os.remove]. *)
Definition removed (tr : list event) : list Path :=
  omap (λ ev, match ev with EvRemove p => Some p | _ => None end) tr.

(** The commands handed to [subprocess.run]. *)
Definition executed (tr : list event) : list (list string) :=
  omap (λ ev, match ev with EvExec c => Some c | _ => None end) tr.

(** ** A state-and-exception monad for the script *)

Definition M (A : Type) : Type := world → outcome A * world.

Definition raise {A} (e : exn) : M A := λ w, (Raise e, w).

Global Instance M_ret : MRet M := λ A a w, (Return a, w).
Global Instance M_bind : MBind M := λ A B k m w,
  match m w with
  | (Return a, w') => k a w'
  | (Raise e, w') => (Raise e, w')
  end.

(** [try: m  except Exception as e: h e]; [SystemExit] is not an
    [Exception] and passes through. *)
Definition try_except {A} (m : M A) (h : exn → M A) : M A :=
  λ w, match m w with
       | (Return a, w') => (Return a, w')
       | (Raise (SystemExit c), w') => (Raise (SystemExit c), w')
       | (Raise e, w') => h e w'
       end.

Definition log (ev : event) : M unit :=
  λ w, (Return tt, World (fs w) (trace w ++ [ev])).

Definition print (line : string) : M unit := log (EvPrint line).

(** ** The [os] and [pathlib] calls *)

(** [p.exists()] *)
Definition exists_ (p : Path) : M bool :=
  λ w, (Return (bool_decide (is_Some (fs w !! p))), w).

(** [p.is_dir()] *)
Definition is_dir (p : Path) : M bool :=
  λ w, (Return (from_option is_directory false (fs w !! p)), w).

(** [p.stat()] *)
Definition stat (p : Path) : M node :=
  λ w, match fs w !! p with
       | Some n => (Return n, w)
       | None => (Raise (FileNotFoundError (str p)), w)
       end.

(** [os.utime(p, (atime, mtime))]; its error does not name the file. *)
Definition utime (p : Path) (atime mtime : Z) : M unit :=
  λ w, match fs w !! p with
       | Some n =>
           (Return tt,
            World (<[p := Node (is_directory n) atime mtime]> (fs w))
                  (trace w ++ [EvUtime p atime mtime]))
       | None => (Raise FileNotFoundErrorNoFilename, w)
       end.

(** [os.remove(p)]: only a regular file can be removed. *)
Definition os_remove (p : Path) : M unit :=
  λ w, match fs w !! p with
       | Some n =>
           if is_directory n
           then (Raise (IsADirectoryError (str p)), w)
           else (Return tt, World (delete p (fs w)) (trace w ++ [EvRemove p]))
       | None => (Raise (FileNotFoundError (str p)), w)
       end.

(** The entry of [k] below [d]: [Some f] exactly when [k = d // f]. *)
Fixpoint child_of (d k : Path) : option string :=
  match d, k with
  | [], [f] => Some f
  | a :: d', b :: k' => if decide (a = b) then child_of d' k' else None
  | _, _ => None
  end.

(** The names of the entries of [d], in the order the map yields them
    ([os.listdir] promises no particular order). *)
Definition entries (m : filesystem) (d : Path) : list string :=
  omap (child_of d) (map_to_list m).*1.

(** [os.listdir(d)] *)
Definition listdir (d : Path) : M (list string) :=
  λ w, match fs w !! d with
       | Some n =>
           if is_directory n then (Return (entries (fs w) d), w)
           else (Raise (NotADirectoryError (str d)), w)
       | None => (Raise (FileNotFoundError (str d)), w)
       end.

(** * The script *)

Section Script.

(** The external converter: what running a command does to the file
    system, and the [CompletedProcess] it ends with; [None] when the
    program cannot be started.  Nothing is assumed about it here. *)
Variable subprocess :
  list string → filesystem → option CompletedProcess * filesystem.

(** [subprocess.run(command, capture_output=True, text=True)]; a program
    that is not installed makes it raise [FileNotFoundError]. *)
Definition subprocess_run (command : list string) : M CompletedProcess :=
  λ w, let '(r, m') := subprocess command (fs w) in
       (match r with
        | Some result => Return result
        | None => Raise (FileNotFoundError (default "" (head command)))
        end,
        World m' (trace w ++ [EvExec command])).

(** ** [run_magick] *)

Definition output_webp_file (file output_dir : Path) : Path :=
  output_dir // (stem file +:+ "." +:+ _COMPRESSED_FILE_TYPE).

Definition magick_command (file output_dir : Path) : list string :=
  ["magick"; "-quality"; "75"; str file; str (output_webp_file file output_dir)].

Definition magick_failed (file : Path) (result : CompletedProcess) : exn :=
  Exception ("'magick' failed on file " +:+ str file
             +:+ " with error:\n" +:+ stderr result).

Definition run_magick (file output_dir : Path) : M string :=
  result ← subprocess_run (magick_command file output_dir);
  if bool_decide (returncode result ≠ 0) then
    raise (magick_failed file result)
  else
    file_stat ← stat file;
    utime (output_webp_file file output_dir)
          (st_atime file_stat) (st_mtime file_stat);;
    mret (str file).

(** ** [process_images] *)

(** A [Future] is modelled by the outcome of its task.  The [with] block
    of the executor ends with [shutdown(wait=True)], also when the loop
    over the futures returns early, so every submitted task has run to
    completion when [process_images] returns; the tasks are taken here in
    their order of submission and before the results are inspected. *)
Definition submit (file output_dir : Path) : M (outcome string * string) :=
  λ w, let '(o, w') := run_magick file output_dir w in
       (Return (o, str file), w').

Fixpoint submit_all (png_files : list Path) (output_dir : Path)
  : M (list (outcome string * string)) :=
  match png_files with
  | [] => mret []
  | file :: rest =>
      future ← submit file output_dir;
      futures ← submit_all rest output_dir;
      mret (future :: futures)
  end.

(** [future.result()] *)
Definition future_result (future : outcome string) : M string :=
  λ w, (future, w).

(** The loop over [futures]; its value is [false] when the loop body
    executed [return False]. *)
Fixpoint wait_results (futures : list (outcome string * string)) : M bool :=
  match futures with
  | [] => mret true
  | (future, file) :: rest =>
      continue ←
        try_except
          (r ← future_result future;
           print ("Processed file: " +:+ r);;
           mret true)
          (λ e,
           print ("Error processing file " +:+ file +:+ ": " +:+ exn_str e);;
           mret false);
      if continue : bool then wait_results rest else mret false
  end.

Definition expected_file (output_dir single_file : Path) : Path :=
  output_dir // (stem single_file +:+ "." +:+ _COMPRESSED_FILE_TYPE).

Definition keeping_original (expected : Path) : string :=
  "Error: Expected file '" +:+ str expected
  +:+ "' not found. Keeping original file.".

(** The loop over [png_files] after the pool. *)
Fixpoint post_pass (png_files : list Path) (output_dir : Path)
    (remove_input_on_success : bool) : M unit :=
  match png_files with
  | [] => mret tt
  | single_file :: rest =>
      present ← exists_ (expected_file output_dir single_file);
      (if present : bool then
         if remove_input_on_success then os_remove single_file else mret tt
       else
         print (keeping_original (expected_file output_dir single_file)));;
      post_pass rest output_dir remove_input_on_success
  end.

Definition png_paths (imgs_dir : Path) (names : list string) : list Path :=
  (λ f, imgs_dir // f) <$> filter (λ f, PyStr.endswith f ".png") names.

Definition process_images (imgs_dir output_dir : Path)
    (remove_input_on_success : bool) : M bool :=
  names ← listdir imgs_dir;
  let png_files := png_paths imgs_dir names in
  futures ← submit_all png_files output_dir;
  completed ← wait_results futures;
  if completed : bool then
    post_pass png_files output_dir remove_input_on_success;;
    mret true
  else mret false.

(** ** [main] *)

(** The parsed command line. *)
Record args := Args {
  input : Path;
  output : Path;
  remove_input : bool
}.

Definition not_a_directory (p : Path) : string :=
  "Error: '" +:+ str p +:+ "' is not a directory.".

Definition main (a : args) : M unit :=
  input_ok ← is_dir (input a);
  if negb input_ok then print (not_a_directory (input a))
  else
    output_ok ← is_dir (output a);
    if negb output_ok then print (not_a_directory (output a))
    else
      result ← process_images (input a) (output a) (remove_input a);
      if negb result then
        print "Operation failed. See above for errors.";;
        raise (SystemExit 1)
      else print "Operation completed successfully.".

(** The status the interpreter exits with once [main()] is over: [0] when
    it returns, the code of an uncaught [SystemExit], [1] after any other
    uncaught exception. *)
Definition exit_status (o : outcome unit) : Z :=
  match o with
  | Return _ => 0
  | Raise (SystemExit code) => code
  | Raise _ => 1
  end.

End Script.

(** * Phases of a run

    [process_images] is a listing, the pool, the loop over the futures and
    the loop over the inputs.  The first two are named here so that the
    statements can speak of the batch, of the result of each conversion and
    of the file system the pool leaves behind. *)

Section Phases.

Variable subprocess :
  list string → filesystem → option CompletedProcess * filesystem.

(** The inputs of the run: [png_files]. *)
Definition batch (imgs_dir : Path) (w : world) : list Path :=
  match listdir imgs_dir w with
  | (Return names, _) => png_paths imgs_dir names
  | (Raise _, _) => []
  end.

(** The listing followed by the pool. *)
Definition pool (imgs_dir output_dir : Path)
  : M (list Path * list (outcome string * string)) :=
  names ← listdir imgs_dir;
  futures ← submit_all subprocess (png_paths imgs_dir names) output_dir;
  mret (png_paths imgs_dir names, futures).

(** The futures of the run, in submission order: the outcome of each
    conversion and the input it belongs to. *)
Definition conversions (imgs_dir output_dir : Path) (w : world)
  : list (outcome string * string) :=
  match (pool imgs_dir output_dir w).1 with
  | Return (_, futures) => futures
  | Raise _ => []
  end.

(** The world once every conversion has completed. *)
Definition after_conversions (imgs_dir output_dir : Path) (w : world) : world :=
  (pool imgs_dir output_dir w).2.

Definition succeeded (future : outcome string * string) : Prop :=
  ∃ r, future.1 = Return r.

Definition failed (future : outcome string * string) : Prop :=
  ∃ e, future.1 = Raise e.

(** The line the loop over the futures prints for one of them. *)
Definition report (future : outcome string * string) : string :=
  match future.1 with
  | Return r => "Processed file: " +:+ r
  | Raise e => "Error processing file " +:+ future.2 +:+ ": " +:+ exn_str e
  end.

(** Every failed conversion of the run is reported on standard output. *)
Definition reports_every_failure (imgs_dir output_dir : Path) (rm : bool)
    (w : world) : Prop :=
  ∀ future, future ∈ conversions imgs_dir output_dir w → failed future →
    report future
    ∈ printed (trace (process_images subprocess imgs_dir output_dir rm w).2).

(** With the flag set, a run in which every conversion succeeded leaves
    none of its inputs on disk. *)
Definition removes_every_input (imgs_dir output_dir : Path) (w : world) : Prop :=
  Forall succeeded (conversions imgs_dir output_dir w) →
  ∀ p, p ∈ batch imgs_dir w →
       fs (process_images subprocess imgs_dir output_dir true w).2 !! p = None.

End Phases.

(** [m'] has every entry of [m], each of the kind it had. *)
Definition extends (m m' : filesystem) : Prop :=
  ∀ p n, m !! p = Some n →
         ∃ n', m' !! p = Some n' ∧ is_directory n' = is_directory n.

(** A converter that creates or overwrites files and does nothing else to
    the directory tree: it deletes no entry and leaves the kind of every
    entry alone. *)
Definition preserving
    (subprocess : list string → filesystem → option CompletedProcess * filesystem)
  : Prop :=
  ∀ command m, extends m (subprocess command m).2.

Definition is_regular (m : filesystem) (p : Path) : Prop :=
  ∃ n, m !! p = Some n ∧ is_directory n = false.

(** The converter, when run for [file], changes no entry but the artifact
    of [file]. *)
Definition writes_artifact_only
    (subprocess : list string → filesystem → option CompletedProcess * filesystem)
    (output_dir file : Path) : Prop :=
  ∀ m p, p ≠ expected_file output_dir file →
         (subprocess (magick_command file output_dir) m).2 !! p = m !! p.

(** * Concrete converters and file systems

    The statements below are exercised on these. *)

Module Examples.

(** The inverse of [str] on the paths used here. *)
Fixpoint split_slash (s : string) : Path :=
  match s with
  | EmptyString => [""]
  | String c s' =>
      if Ascii.eqb c "/" then "" :: split_slash s'
      else match split_slash s' with
           | [] => [String c ""]
           | h :: t => String c h :: t
           end
  end.

Definition completed (code : Z) (err : string) : option CompletedProcess :=
  Some {| returncode := code; stdout := ""; stderr := err |}.

(** A converter that does its job: it reads a regular file and writes the
    artifact, stamped with the time of the conversion; it cannot write over
    a directory. *)
Definition convert (command : list string) (m : filesystem)
  : option CompletedProcess * filesystem :=
  match command with
  | [_; _; _; src; dst] =>
      match m !! split_slash src with
      | Some n =>
          if is_directory n
          then (completed 1 "magick: unable to open image", m)
          else if from_option is_directory false (m !! split_slash dst)
          then (completed 1 "magick: unable to open file for writing", m)
          else (completed 0 "", <[split_slash dst := Node false 1000 1000]> m)
      | None => (completed 1 "magick: unable to open image", m)
      end
  | _ => (completed 1 "magick: no images defined", m)
  end.

(** A converter that rejects every image. *)
Definition reject (command : list string) (m : filesystem)
  : option CompletedProcess * filesystem :=
  (completed 1 "magick: improper image header", m).

(** A converter that rejects [in/b.png] only. *)
Definition reject_b (command : list string) (m : filesystem)
  : option CompletedProcess * filesystem :=
  match command with
  | [_; _; _; src; _] =>
      if String.eqb src "in/b.png"
      then (completed 1 "magick: improper image header", m)
      else convert command m
  | _ => convert command m
  end.

(** A misbehaving converter: it converts, and while it works on another
    image it loses the artifact [out/b.webp]. *)
Definition clobber (command : list string) (m : filesystem)
  : option CompletedProcess * filesystem :=
  match command with
  | [_; _; _; src; _] =>
      if String.eqb src "in/a.png"
      then convert command (delete ["out"; "b.webp"] m)
      else convert command m
  | _ => convert command m
  end.

(** A converter that reports success without writing anything. *)
Definition idle (command : list string) (m : filesystem)
  : option CompletedProcess * filesystem :=
  (completed 0 "", m).

Definition regular (atime mtime : Z) : node := Node false atime mtime.
Definition directory : node := Node true 0 0.

(** [in/] holds two images, an upper-case one and a subdirectory with an
    image of its own; [out/] is empty. *)
Definition disk : filesystem :=
  list_to_map
    [ (["in"], directory);
      (["out"], directory);
      (["in"; "a.png"], regular 10 20);
      (["in"; "b.png"], regular 30 40);
      (["in"; "C.PNG"], regular 50 60);
      (["in"; "sub"], directory);
      (["in"; "sub"; "deep.png"], regular 70 80) ].

Definition boot : world := World disk [].

End Examples.

(** * Facts about strings and paths *)

Section StringFacts.

Lemma append_nil_l (s : string) : "" +:+ s = s.
Proof. reflexivity. Qed.

Lemma append_cons (c : ascii) (s t : string) :
  String c s +:+ t = String c (s +:+ t).
Proof. reflexivity. Qed.

Lemma length_append (s t : string) :
  String.length (s +:+ t) = (String.length s + String.length t)%nat.
Proof.
  induction s as [|c s IH]; [done|]. rewrite append_cons. simpl. by rewrite IH.
Qed.

Lemma append_assoc (s t u : string) : (s +:+ t) +:+ u = s +:+ t +:+ u.
Proof.
  induction s as [|c s IH]; [done|]. rewrite !append_cons. by rewrite IH.
Qed.

Lemma substring_all (s : string) : String.substring 0 (String.length s) s = s.
Proof. induction s as [|c s IH]; simpl; [done | by rewrite IH]. Qed.

Lemma substring_skip (pre s : string) (m : nat) :
  String.substring (String.length pre) m (pre +:+ s) = String.substring 0 m s.
Proof. induction pre as [|c pre IH]; [done|]. rewrite append_cons. apply IH. Qed.

Lemma substring_prefix (pre s : string) :
  String.substring 0 (String.length pre) (pre +:+ s) = pre.
Proof.
  induction pre as [|c pre IH]; [by destruct s|].
  rewrite append_cons. simpl. by rewrite IH.
Qed.

(** Cutting a string at [n] and gluing the halves gives it back. *)
Lemma substring_split (s : string) (n : nat) :
  (n ≤ String.length s)%nat →
  s = String.substring 0 n s
      +:+ String.substring n (String.length s - n) s.
Proof.
  revert n. induction s as [|c s IH]; intros [|n] Hn; simpl in *;
    try done; try lia.
  - by rewrite append_nil_l, substring_all.
  - rewrite append_cons. f_equal. apply IH. lia.
Qed.

(** [endswith] is the suffix relation. *)
Lemma endswith_spec (s suf : string) :
  PyStr.endswith s suf = true ↔ ∃ pre, s = pre +:+ suf.
Proof.
  unfold PyStr.endswith. rewrite andb_true_iff, bool_decide_eq_true, String.eqb_eq.
  split.
  - intros [Hlen Heq]. eexists.
    rewrite (substring_split s (String.length s - String.length suf)) at 1 by lia.
    f_equal. rewrite <- Heq at 3. f_equal. lia.
  - intros [pre ->]. rewrite length_append. split; [lia|].
    replace (String.length pre + String.length suf - String.length suf)%nat
      with (String.length pre) by lia.
    by rewrite substring_skip, substring_all.
Qed.

Lemma append_inj_r (s1 s2 t1 t2 : string) :
  String.length t1 = String.length t2 →
  s1 +:+ t1 = s2 +:+ t2 → s1 = s2 ∧ t1 = t2.
Proof.
  revert s2. induction s1 as [|c s1 IH]; intros [|d s2] Hlen Heq.
  - done.
  - apply (f_equal String.length) in Heq.
    rewrite append_nil_l, length_append in Heq. simpl in Heq. lia.
  - apply (f_equal String.length) in Heq.
    rewrite append_nil_l, length_append in Heq. simpl in Heq. lia.
  - rewrite !append_cons in Heq. injection Heq as -> Heq.
    destruct (IH _ Hlen Heq) as [-> ->]. done.
Qed.

(** Two suffixes of the same length decide the match: a name that ends in
    another suffix of that length does not end in [suf]. *)
Lemma endswith_other_suffix (pre ext suf : string) :
  String.length ext = String.length suf → ext ≠ suf →
  PyStr.endswith (pre +:+ ext) suf = false.
Proof.
  intros Hlen Hne. apply not_true_is_false. intros [pre' Heq]%endswith_spec.
  by destruct (append_inj_r _ _ _ _ Hlen Heq).
Qed.

End StringFacts.

Section PathFacts.

(** The dot that opens the last suffix is the one [rfind] returns. *)
Lemma rfind_last_dot (s t : string) :
  PyStr.rfind "." t = -1 →
  PyStr.rfind "." (s +:+ String "." t) = Z.of_nat (String.length s).
Proof.
  intros Ht. induction s as [|c s IH].
  - rewrite append_nil_l. simpl. by rewrite Ht.
  - rewrite append_cons. cbn [PyStr.rfind String.length]. rewrite IH.
    destruct (Z.leb_spec 0 (Z.of_nat (String.length s))); lia.
Qed.

Lemma name_joinpath (d : Path) (f : string) : name (d // f) = f.
Proof. unfold name, joinpath. by rewrite last_snoc. Qed.

Lemma joinpath_inj (d1 d2 : Path) (f1 f2 : string) :
  d1 // f1 = d2 // f2 → d1 = d2 ∧ f1 = f2.
Proof. unfold joinpath. intros H. by apply app_inj_tail in H. Qed.

(** The stem of [base.png] is [base], unless [base] is empty: the name
    [.png] is a hidden file without suffix and is its own stem. *)
Lemma stem_png (d : Path) (base : string) :
  stem (d // (base +:+ ".png")) = if decide (base = "") then ".png" else base.
Proof.
  unfold stem. rewrite name_joinpath.
  rewrite (rfind_last_dot base "png") by done.
  rewrite length_append. case_decide as Hb.
  - by subst base.
  - assert (0 < String.length base)%nat by (destruct base; simpl; [done | lia]).
    replace (0 <? Z.of_nat (String.length base)) with true
      by (symmetry; apply Z.ltb_lt; lia).
    replace (Z.of_nat (String.length base)
             <? Z.of_nat (String.length base + String.length ".png") - 1)
      with true by (symmetry; apply Z.ltb_lt; simpl; lia).
    simpl andb. cbv iota. rewrite Nat2Z.id. apply substring_prefix.
Qed.

Lemma compressed_name (x : string) :
  x +:+ "." +:+ _COMPRESSED_FILE_TYPE = (x +:+ ".") +:+ "webp".
Proof. by rewrite append_assoc. Qed.

(** No artifact name passes the [.png] filter. *)
Lemma compressed_not_png (x : string) :
  PyStr.endswith (x +:+ "." +:+ _COMPRESSED_FILE_TYPE) ".png" = false.
Proof. rewrite compressed_name. by apply endswith_other_suffix. Qed.

Lemma child_of_spec (d k : Path) (f : string) :
  child_of d k = Some f ↔ k = d // f.
Proof.
  unfold joinpath. revert k. induction d as [|a d IH]; intros k; simpl.
  - destruct k as [|b [|c k]]; split; intros H; by simplify_eq.
  - destruct k as [|b k]; [split; intros H; by simplify_eq|].
    case_decide as Hab.
    + subst b. rewrite IH. split; intros H; by simplify_eq.
    + split; intros H; by simplify_eq.
Qed.

(** [os.listdir] yields the names of the entries directly below [d] ... *)
Lemma elem_of_entries (m : filesystem) (d : Path) (f : string) :
  f ∈ entries m d ↔ is_Some (m !! (d // f)).
Proof.
  unfold entries. rewrite list_elem_of_omap. split.
  - intros (k & Hk & Hc). apply child_of_spec in Hc as ->.
    apply list_elem_of_fmap in Hk as ([k' n] & Heq & Hin). simpl in Heq.
    subst k'. apply elem_of_map_to_list in Hin. eauto.
  - intros [n Hn]. exists (d // f). split; [|by apply child_of_spec].
    apply list_elem_of_fmap. exists (d // f, n). split; [done|].
    by apply elem_of_map_to_list.
Qed.

(** ... each of them once. *)
Lemma NoDup_entries (m : filesystem) (d : Path) : NoDup (entries m d).
Proof.
  unfold entries. generalize (NoDup_fst_map_to_list m).
  generalize ((map_to_list m).*1). intros l. induction 1 as [|k l Hk Hl IH]; simpl.
  - constructor.
  - destruct (child_of d k) as [f|] eqn:Hf; [|done].
    constructor; [|done]. rewrite list_elem_of_omap.
    intros (k' & Hin & Hk'). apply child_of_spec in Hf, Hk'. congruence.
Qed.

Lemma elem_of_png_paths (d : Path) (names : list string) (p : Path) :
  p ∈ png_paths d names ↔
  ∃ f, p = d // f ∧ PyStr.endswith f ".png" = true ∧ f ∈ names.
Proof.
  unfold png_paths. rewrite list_elem_of_fmap. split.
  - intros (f & -> & Hin). apply list_elem_of_filter in Hin as [Hf Hin].
    exists f. by apply Is_true_true in Hf.
  - intros (f & -> & Hf & Hin). exists f. split; [done|].
    apply list_elem_of_filter. by apply Is_true_true in Hf.
Qed.

Lemma NoDup_png_paths (d : Path) (names : list string) :
  NoDup names → NoDup (png_paths d names).
Proof.
  intros Hnd. unfold png_paths. apply NoDup_fmap_2.
  - intros f1 f2 H. simpl in H. by apply joinpath_inj in H as [_ ?].
  - by apply NoDup_filter.
Qed.

(** The artifact of one input is never another input of the batch. *)
Lemma expected_file_not_input (out d : Path) (names : list string) (g : Path) :
  expected_file out g ∉ png_paths d names.
Proof.
  intros (f & Heq & Hf & _)%elem_of_png_paths.
  unfold expected_file in Heq. apply joinpath_inj in Heq as [_ <-].
  by rewrite compressed_not_png in Hf.
Qed.

End PathFacts.

(** * Running the monad *)

Section Running.

Lemma bind_run {A B} (m : M A) (k : A → M B) (w : world) :
  (m ≫= k) w = match m w with
               | (Return a, w') => k a w'
               | (Raise e, w') => (Raise e, w')
               end.
Proof. reflexivity. Qed.

Lemma printed_snoc (tr : list event) (ev : event) :
  printed (tr ++ [ev])
  = printed tr ++ match ev with EvPrint s => [s] | _ => [] end.
Proof. unfold printed. rewrite omap_app. by destruct ev. Qed.

Lemma removed_snoc (tr : list event) (ev : event) :
  removed (tr ++ [ev])
  = removed tr ++ match ev with EvRemove p => [p] | _ => [] end.
Proof. unfold removed. rewrite omap_app. by destruct ev. Qed.

Lemma extends_refl (m : filesystem) : extends m m.
Proof. intros p n Hp. eauto. Qed.

Lemma extends_trans (m1 m2 m3 : filesystem) :
  extends m1 m2 → extends m2 m3 → extends m1 m3.
Proof.
  intros H12 H23 p n Hp. destruct (H12 p n Hp) as (n2 & Hp2 & Hk2).
  destruct (H23 p n2 Hp2) as (n3 & Hp3 & Hk3). exists n3. split; congruence.
Qed.

Lemma extends_utime (m : filesystem) (p : Path) (n : node) (a t : Z) :
  m !! p = Some n → extends m (<[p := Node (is_directory n) a t]> m).
Proof.
  intros Hp q nq Hq. destruct (decide (p = q)) as [->|Hne].
  - rewrite lookup_insert_eq. eexists. split; [done|]. simpl. congruence.
  - rewrite lookup_insert_ne by done. eauto.
Qed.

End Running.

(** * [run_magick] *)

Section RunMagick.

Variable subprocess :
  list string → filesystem → option CompletedProcess * filesystem.

(** The five ways a conversion can end, read off the code. *)
Lemma run_magick_cases (file output_dir : Path) (w : world) :
  run_magick subprocess file output_dir w =
  let command := magick_command file output_dir in
  let out := output_webp_file file output_dir in
  let m1 := (subprocess command (fs w)).2 in
  let w1 := World m1 (trace w ++ [EvExec command]) in
  match (subprocess command (fs w)).1 with
  | None => (Raise (FileNotFoundError "magick"), w1)
  | Some result =>
      if bool_decide (returncode result ≠ 0)
      then (Raise (magick_failed file result), w1)
      else match m1 !! file with
           | None => (Raise (FileNotFoundError (str file)), w1)
           | Some n =>
               match m1 !! out with
               | None => (Raise FileNotFoundErrorNoFilename, w1)
               | Some n_out =>
                   (Return (str file),
                    World (<[out := Node (is_directory n_out)
                                         (st_atime n) (st_mtime n)]> m1)
                          (trace w1 ++ [EvUtime out (st_atime n) (st_mtime n)]))
               end
           end
  end.
Proof.
  unfold run_magick. rewrite bind_run. unfold subprocess_run.
  destruct (subprocess _ _) as [[result|] m1]; simpl; [|done].
  case_bool_decide; [done|].
  rewrite bind_run. unfold stat. simpl.
  destruct (m1 !! file) as [n|]; [|done].
  rewrite bind_run. unfold utime. simpl.
  by destruct (m1 !! output_webp_file file output_dir).
Qed.

(** A conversion prints nothing and removes nothing. *)
Lemma run_magick_quiet (file output_dir : Path) (w : world) :
  printed (trace (run_magick subprocess file output_dir w).2) = printed (trace w)
  ∧ removed (trace (run_magick subprocess file output_dir w).2) = removed (trace w).
Proof.
  rewrite run_magick_cases. cbv zeta.
  destruct (subprocess _ _) as [[result|] m1]; simpl;
    repeat first [ case_bool_decide | case_match ]; simpl;
    rewrite ?printed_snoc, ?removed_snoc, ?app_nil_r; done.
Qed.

(** With a preserving converter a conversion loses no entry. *)
Lemma run_magick_extends (file output_dir : Path) (w : world) :
  preserving subprocess →
  extends (fs w) (fs (run_magick subprocess file output_dir w).2).
Proof.
  intros Hsub. rewrite run_magick_cases. cbv zeta.
  pose proof (Hsub (magick_command file output_dir) (fs w)) as Hext.
  destruct (subprocess _ _) as [[result|] m1]; simpl in *; [|done].
  repeat first [ case_bool_decide | case_match ]; simpl; try done.
  eapply extends_trans; [done|]. by apply extends_utime.
Qed.

(** A conversion that succeeded returns the input path and leaves the
    artifact in place. *)
Lemma run_magick_success (file output_dir : Path) (w : world) (r : string) :
  (run_magick subprocess file output_dir w).1 = Return r →
  r = str file
  ∧ is_Some (fs (run_magick subprocess file output_dir w).2
             !! output_webp_file file output_dir).
Proof.
  rewrite run_magick_cases. cbv zeta.
  destruct (subprocess _ _) as [[result|] m1]; simpl; [|done].
  repeat first [ case_bool_decide | case_match ]; simpl; try done.
  intros [= <-]. by rewrite lookup_insert_eq.
Qed.

End RunMagick.

(** C4.  Whatever the converter, the input and the output directory:
    when the converter exits with a non-zero status, [run_magick] raises an
    exception whose message carries its standard error; when it exits with
    zero and has left the input and the artifact in place, [run_magick]
    returns the input path, and the artifact then bears the last-access and
    last-modified stamps read from the input. *)
Theorem run_magick_result
    (subprocess : list string → filesystem → option CompletedProcess * filesystem)
    (file output_dir : Path) (w : world)
    (result : CompletedProcess) (m1 : filesystem) :
  subprocess (magick_command file output_dir) (fs w) = (Some result, m1) →
  let r := run_magick subprocess file output_dir w in
  (returncode result ≠ 0 →
     r.1 = Raise (Exception ("'magick' failed on file " +:+ str file
                             +:+ " with error:\n" +:+ stderr result))
     ∧ PyStr.endswith (exn_str (Exception
           ("'magick' failed on file " +:+ str file
            +:+ " with error:\n" +:+ stderr result))) (stderr result) = true)
  ∧ (returncode result = 0 →
     ∀ n n_out,
       m1 !! file = Some n →
       m1 !! output_webp_file file output_dir = Some n_out →
       r.1 = Return (str file)
       ∧ fs r.2 !! output_webp_file file output_dir
         = Some (Node (is_directory n_out) (st_atime n) (st_mtime n))
       ∧ (∀ p, p ≠ output_webp_file file output_dir → fs r.2 !! p = m1 !! p)).
Proof.
  intros Hsub r. subst r. rewrite run_magick_cases. cbv zeta. rewrite Hsub. simpl.
  split.
  - intros Hrc. rewrite bool_decide_eq_true_2 by done. split; [done|].
    apply endswith_spec. simpl. eexists.
    by rewrite <- !append_assoc.
  - intros Hrc n n_out Hn Hout. rewrite bool_decide_eq_false_2 by lia.
    rewrite Hn, Hout. simpl. split; [done|]. split.
    + by rewrite lookup_insert_eq.
    + intros p Hp. by rewrite lookup_insert_ne.
Qed.

Lemma run_magick_result_witness :
  ((run_magick Examples.reject ["in"; "a.png"] ["out"] Examples.boot).1
   = Raise (Exception "'magick' failed on file in/a.png with error:\nmagick: improper image header"))
  ∧ ((run_magick Examples.convert ["in"; "a.png"] ["out"] Examples.boot).1
     = Return "in/a.png"
     ∧ fs (run_magick Examples.convert ["in"; "a.png"] ["out"] Examples.boot).2
       !! ["out"; "a.webp"] = Some (Node false 10 20)).
Proof.
  split.
  - refine (proj1 (proj1 (run_magick_result Examples.reject ["in"; "a.png"] ["out"]
             Examples.boot _ _ eq_refl) _)).
    simpl. lia.
  - pose proof (proj2 (run_magick_result Examples.convert ["in"; "a.png"] ["out"]
             Examples.boot _ _ eq_refl) eq_refl
             (Node false 10 20) (Node false 1000 1000) eq_refl eq_refl) as H.
    exact (conj (proj1 H) (proj1 (proj2 H))).
Defined.

(** * The pool and the loop over the futures *)

Section Pool.

Variable subprocess :
  list string → filesystem → option CompletedProcess * filesystem.

Lemma run_magick_exception (file output_dir : Path) (w : world) (e : exn) :
  (run_magick subprocess file output_dir w).1 = Raise e → is_exception e.
Proof.
  rewrite run_magick_cases. cbv zeta.
  destruct (subprocess _ _) as [[result|] m1]; simpl;
    repeat first [ case_bool_decide | case_match ]; simpl;
    by intros [= <-].
Qed.

Lemma submit_all_cons (file : Path) (rest : list Path) (output_dir : Path)
    (w : world) :
  submit_all subprocess (file :: rest) output_dir w =
  match submit_all subprocess rest output_dir
          (run_magick subprocess file output_dir w).2 with
  | (Return futures, w') =>
      (Return (((run_magick subprocess file output_dir w).1, str file) :: futures),
       w')
  | (Raise e, w') => (Raise e, w')
  end.
Proof.
  cbn [submit_all]. rewrite bind_run. unfold submit at 1.
  destruct (run_magick _ _ _ _) as [o w1]. simpl. rewrite bind_run.
  by destruct (submit_all _ _ _ _) as [[futures|e] w2].
Qed.

(** The pool never raises: every task ends in a future. *)
Lemma submit_all_returns (files : list Path) (output_dir : Path) (w : world) :
  ∃ futures, (submit_all subprocess files output_dir w).1 = Return futures
             ∧ futures.*2 = str <$> files.
Proof.
  revert w. induction files as [|file rest IH]; intros w.
  - by exists [].
  - rewrite submit_all_cons.
    destruct (IH (run_magick subprocess file output_dir w).2) as (futures & Hf & Hn).
    destruct (submit_all _ _ _ _) as [[futures'|e] w2]; simpl in *; [|done].
    injection Hf as ->. eexists. split; [done|].
    rewrite fmap_cons. simpl. by rewrite Hn.
Qed.

Lemma submit_all_quiet (files : list Path) (output_dir : Path) (w : world) :
  printed (trace (submit_all subprocess files output_dir w).2) = printed (trace w)
  ∧ removed (trace (submit_all subprocess files output_dir w).2) = removed (trace w).
Proof.
  revert w. induction files as [|file rest IH]; intros w; [done|].
  rewrite submit_all_cons.
  destruct (IH (run_magick subprocess file output_dir w).2) as [Hp Hr].
  destruct (run_magick_quiet subprocess file output_dir w) as [Hp1 Hr1].
  destruct (submit_all _ _ _ _) as [[futures'|e] w2]; simpl in *; split; congruence.
Qed.

Lemma submit_all_extends (files : list Path) (output_dir : Path) (w : world) :
  preserving subprocess →
  extends (fs w) (fs (submit_all subprocess files output_dir w).2).
Proof.
  intros Hsub. revert w. induction files as [|file rest IH]; intros w.
  - apply extends_refl.
  - rewrite submit_all_cons.
    specialize (IH (run_magick subprocess file output_dir w).2).
    pose proof (run_magick_extends subprocess file output_dir w Hsub) as H1.
    destruct (submit_all _ _ _ _) as [[futures'|e] w2]; simpl in *;
      by eapply extends_trans.
Qed.

(** No future holds a [SystemExit]. *)
Lemma submit_all_exceptions (files : list Path) (output_dir : Path) (w : world)
    (futures : list (outcome string * string)) :
  (submit_all subprocess files output_dir w).1 = Return futures →
  Forall (λ future, ∀ e, future.1 = Raise e → is_exception e) futures.
Proof.
  revert w futures. induction files as [|file rest IH]; intros w futures.
  - intros [= <-]. constructor.
  - rewrite submit_all_cons.
    specialize (IH (run_magick subprocess file output_dir w).2).
    destruct (submit_all _ _ _ _) as [[futures'|e] w2]; simpl in *; [|done].
    intros [= <-]. constructor; [|by apply IH].
    simpl. apply run_magick_exception.
Qed.

(** With a preserving converter, the artifact of every conversion that
    succeeded is there when the pool is done. *)
Lemma submit_all_artifacts (files : list Path) (output_dir : Path) (w : world)
    (futures : list (outcome string * string)) :
  preserving subprocess →
  (submit_all subprocess files output_dir w).1 = Return futures →
  Forall succeeded futures →
  ∀ file, file ∈ files →
    is_Some (fs (submit_all subprocess files output_dir w).2
             !! expected_file output_dir file).
Proof.
  intros Hsub. revert w futures.
  induction files as [|file rest IH]; intros w futures Hf Hok g Hg.
  - by apply elem_of_nil in Hg.
  - rewrite submit_all_cons in Hf |- *.
    specialize (IH (run_magick subprocess file output_dir w).2).
    pose proof (submit_all_extends rest output_dir
                  (run_magick subprocess file output_dir w).2 Hsub) as Hext.
    destruct (submit_all _ _ _ _) as [[futures'|e] w2]; simpl in *; [|done].
    injection Hf as <-. apply Forall_cons in Hok as [[r Hr] Hok].
    apply elem_of_cons in Hg as [->|Hg]; [|by eapply IH].
    simpl in Hr. apply run_magick_success in Hr as [_ [n Hn]].
    destruct (Hext _ _ Hn) as (n' & Hn' & _). by exists n'.
Qed.

(** One turn of the loop over the futures. *)
Lemma wait_results_return (r file : string)
    (rest : list (outcome string * string)) (w : world) :
  wait_results ((Return r, file) :: rest) w
  = wait_results rest
      (World (fs w) (trace w ++ [EvPrint ("Processed file: " +:+ r)])).
Proof. reflexivity. Qed.

Lemma wait_results_raise (e : exn) (file : string)
    (rest : list (outcome string * string)) (w : world) :
  wait_results ((Raise e, file) :: rest) w
  = match e with
    | SystemExit code => (Raise (SystemExit code), w)
    | _ => (Return false,
            World (fs w)
              (trace w ++ [EvPrint ("Error processing file " +:+ file +:+ ": "
                                    +:+ exn_str e)]))
    end.
Proof. by destruct e. Qed.

(** The loop over the futures touches no file. *)
Lemma wait_results_fs (futures : list (outcome string * string)) (w : world) :
  fs (wait_results futures w).2 = fs w
  ∧ removed (trace (wait_results futures w).2) = removed (trace w).
Proof.
  revert w. induction futures as [|[[r|e] file] rest IH]; intros w; [done|..].
  - rewrite wait_results_return.
    destruct (IH (World (fs w) (trace w ++ [EvPrint ("Processed file: " +:+ r)])))
      as [Hfs Hrm].
    split; [done|]. rewrite Hrm. simpl. by rewrite removed_snoc, app_nil_r.
  - rewrite wait_results_raise.
    destruct e; simpl; by rewrite ?removed_snoc, ?app_nil_r.
Qed.

(** When every conversion succeeded the loop reports each of them and is
    left at its end. *)
Lemma wait_results_all (futures : list (outcome string * string)) (w : world) :
  Forall succeeded futures →
  (wait_results futures w).1 = Return true
  ∧ printed (trace (wait_results futures w).2)
    = printed (trace w) ++ (report <$> futures).
Proof.
  revert w. induction futures as [|[o file] rest IH]; intros w Hok.
  - simpl. by rewrite app_nil_r.
  - apply Forall_cons in Hok as [[r Hr] Hok]. simpl in Hr. subst o.
    rewrite wait_results_return.
    destruct (IH (World (fs w) (trace w ++ [EvPrint ("Processed file: " +:+ r)])) Hok)
      as [Hres Hpr].
    split; [done|]. rewrite Hpr. simpl. rewrite printed_snoc.
    by rewrite <- app_assoc.
Qed.

(** The loop stops at the first future that raised: it reports the
    conversions before it, then this failure, and returns [False]. *)
Lemma wait_results_first_failure
    (before rest : list (outcome string * string))
    (future : outcome string * string) (w : world) :
  Forall succeeded before →
  (∃ e, future.1 = Raise e ∧ is_exception e) →
  (wait_results (before ++ future :: rest) w).1 = Return false
  ∧ printed (trace (wait_results (before ++ future :: rest) w).2)
    = printed (trace w) ++ (report <$> before) ++ [report future].
Proof.
  intros Hok (e & He & Hexc). revert w.
  induction before as [|[o file] before IH]; intros w.
  - destruct future as [o file]. simpl in He. subst o.
    rewrite app_nil_l, wait_results_raise. unfold report.
    destruct e; try done; simpl; by rewrite printed_snoc.
  - apply Forall_cons in Hok as [[r Hr] Hok]. simpl in Hr. subst o.
    rewrite <- app_comm_cons, wait_results_return.
    destruct (IH Hok (World (fs w) (trace w ++ [EvPrint ("Processed file: " +:+ r)])))
      as [Hres Hpr].
    split; [done|]. rewrite Hpr. simpl. rewrite printed_snoc.
    by rewrite <- app_assoc.
Qed.

(** The loop over the futures runs no command. *)
Lemma wait_results_executed (futures : list (outcome string * string)) (w : world) :
  executed (trace (wait_results futures w).2) = executed (trace w).
Proof.
  revert w. induction futures as [|[[r|e] file] rest IH]; intros w; [done|..].
  - rewrite wait_results_return, IH. unfold executed. simpl.
    by rewrite omap_app, app_nil_r.
  - rewrite wait_results_raise. unfold executed.
    destruct e; simpl; by rewrite ?omap_app, ?app_nil_r.
Qed.

End Pool.

(** * The loop over the inputs *)

Section PostPass.

(** One turn of the loop. *)
Lemma post_pass_cons (f : Path) (rest : list Path) (output_dir : Path)
    (rm : bool) (w : world) :
  post_pass (f :: rest) output_dir rm w =
  match fs w !! expected_file output_dir f with
  | Some _ =>
      if rm then
        match fs w !! f with
        | Some n =>
            if is_directory n then (Raise (IsADirectoryError (str f)), w)
            else post_pass rest output_dir rm
                   (World (delete f (fs w)) (trace w ++ [EvRemove f]))
        | None => (Raise (FileNotFoundError (str f)), w)
        end
      else post_pass rest output_dir rm w
  | None =>
      post_pass rest output_dir rm
        (World (fs w)
           (trace w ++ [EvPrint (keeping_original (expected_file output_dir f))]))
  end.
Proof.
  cbn [post_pass]. rewrite !bind_run. unfold exists_. simpl.
  destruct (fs w !! expected_file output_dir f) as [n_out|] eqn:Hout.
  - rewrite bool_decide_eq_true_2 by eauto. destruct rm; [|reflexivity].
    rewrite bind_run. unfold os_remove. simpl.
    destruct (fs w !! f) as [n|]; [|reflexivity].
    destruct (is_directory n); reflexivity.
  - rewrite bool_decide_eq_false_2; [reflexivity|]. by intros [? ?].
Qed.

(** Without the flag the loop removes nothing and cannot fail. *)
Lemma post_pass_keep (files : list Path) (output_dir : Path) (w : world) :
  (post_pass files output_dir false w).1 = Return tt
  ∧ fs (post_pass files output_dir false w).2 = fs w
  ∧ removed (trace (post_pass files output_dir false w).2) = removed (trace w).
Proof.
  revert w. induction files as [|f rest IH]; intros w; [done|].
  rewrite post_pass_cons. destruct (fs w !! expected_file output_dir f); [done|].
  destruct (IH (World (fs w)
     (trace w ++ [EvPrint (keeping_original (expected_file output_dir f))])))
    as (Hr & Hfs & Hrm).
  split; [done|]. split; [done|]. rewrite Hrm. simpl.
  by rewrite removed_snoc, app_nil_r.
Qed.

(** An input whose artifact is missing is never handed to [os.remove]. *)
Lemma post_pass_retains (files : list Path) (output_dir : Path) (rm : bool)
    (w : world) (f : Path) :
  fs w !! expected_file output_dir f = None →
  fs (post_pass files output_dir rm w).2 !! f = fs w !! f
  ∧ ∃ rs, removed (trace (post_pass files output_dir rm w).2)
          = removed (trace w) ++ rs ∧ f ∉ rs.
Proof.
  revert w. induction files as [|g rest IH]; intros w Hf.
  - split; [done|]. exists []. split; [by rewrite app_nil_r | apply not_elem_of_nil].
  - rewrite post_pass_cons.
    destruct (fs w !! expected_file output_dir g) as [n_out|] eqn:Hg.
    + destruct rm; [|by apply IH].
      destruct (fs w !! g) as [n|] eqn:Hn.
      * destruct (is_directory n).
        { split; [done|]. exists [].
          split; [by rewrite app_nil_r | apply not_elem_of_nil]. }
        assert (f ≠ g) as Hne by congruence.
        destruct (IH (World (delete g (fs w)) (trace w ++ [EvRemove g])))
          as (Hfs & rs & Hrm & Hrs).
        { simpl. rewrite lookup_delete. by case_decide. }
        simpl in *. split; [by rewrite Hfs, lookup_delete_ne|].
        exists (g :: rs). rewrite Hrm, removed_snoc, <- app_assoc.
        split; [done|]. rewrite not_elem_of_cons. done.
      * split; [done|]. exists [].
        split; [by rewrite app_nil_r | apply not_elem_of_nil].
    + destruct (IH (World (fs w)
         (trace w ++ [EvPrint (keeping_original (expected_file output_dir g))])) Hf)
        as (Hfs & rs & Hrm & Hrs).
      simpl in *. split; [done|]. exists rs.
      by rewrite Hrm, removed_snoc, app_nil_r.
Qed.

(** A loop that ran to its end has warned about every missing artifact. *)
Lemma post_pass_warns (files : list Path) (output_dir : Path) (rm : bool)
    (w : world) :
  (∀ s, s ∈ printed (trace w) →
        s ∈ printed (trace (post_pass files output_dir rm w).2))
  ∧ ((post_pass files output_dir rm w).1 = Return tt →
     ∀ f, f ∈ files → fs w !! expected_file output_dir f = None →
          keeping_original (expected_file output_dir f)
          ∈ printed (trace (post_pass files output_dir rm w).2)).
Proof.
  revert w. induction files as [|g rest IH]; intros w.
  - split; [done|]. intros _ f Hin. by apply elem_of_nil in Hin.
  - rewrite post_pass_cons.
    destruct (fs w !! expected_file output_dir g) as [n_out|] eqn:Hg.
    + destruct rm.
      * destruct (fs w !! g) as [n|] eqn:Hn; [|done].
        destruct (is_directory n); [done|].
        destruct (IH (World (delete g (fs w)) (trace w ++ [EvRemove g])))
          as [Hmono Hwarn].
        split.
        { intros s Hs. apply Hmono. simpl. by rewrite printed_snoc, app_nil_r. }
        intros Hret f Hin Hf. apply elem_of_cons in Hin as [->|Hin]; [congruence|].
        apply Hwarn; [done..|]. simpl. rewrite lookup_delete. by case_decide.
      * destruct (IH w) as [Hmono Hwarn]. split; [done|].
        intros Hret f Hin Hf. apply elem_of_cons in Hin as [->|Hin]; [congruence|].
        by apply Hwarn.
    + destruct (IH (World (fs w)
         (trace w ++ [EvPrint (keeping_original (expected_file output_dir g))])))
        as [Hmono Hwarn].
      split.
      { intros s Hs. apply Hmono. simpl. rewrite printed_snoc.
        apply elem_of_app. by left. }
      intros Hret f Hin Hf. apply elem_of_cons in Hin as [->|Hin].
      * apply Hmono. simpl. rewrite printed_snoc. apply elem_of_app. right.
        by apply list_elem_of_singleton.
      * by apply Hwarn.
Qed.

(** The loop runs to its end when the inputs it is about to remove are
    regular files. *)
Lemma post_pass_returns (files : list Path) (output_dir : Path) (rm : bool)
    (w : world) :
  NoDup files →
  (rm = false ∨
   ∀ g, g ∈ files → is_Some (fs w !! expected_file output_dir g) →
        is_regular (fs w) g) →
  (post_pass files output_dir rm w).1 = Return tt.
Proof.
  intros Hnd [-> | Hreg]; [apply post_pass_keep|].
  revert w Hreg. induction Hnd as [|g rest Hg Hnd IH]; intros w Hreg; [done|].
  rewrite post_pass_cons.
  destruct (fs w !! expected_file output_dir g) as [n_out|] eqn:Hout.
  - destruct rm.
    + destruct (Hreg g) as (n & Hn & Hk); [left | eauto |].
      rewrite Hn, Hk. apply IH. simpl. intros g' Hin [no Hno].
      assert (g' ≠ g) as Hne by (intros ->; done).
      rewrite lookup_delete in Hno. case_decide; [done|].
      destruct (Hreg g') as (n' & Hn' & Hk'); [by right | eauto |].
      exists n'. by rewrite lookup_delete_ne.
    + apply IH. intros g' Hin. apply Hreg. by right.
  - apply IH. simpl. intros g' Hin. apply Hreg. by right.
Qed.

(** With the flag set, every artifact present and every input a regular
    file, the loop removes exactly the inputs, in their order. *)
Lemma post_pass_removes (files : list Path) (output_dir : Path) (w : world) :
  NoDup files →
  (∀ g g', g ∈ files → g' ∈ files → expected_file output_dir g' ≠ g) →
  (∀ g, g ∈ files → is_Some (fs w !! expected_file output_dir g)) →
  (∀ g, g ∈ files → is_regular (fs w) g) →
  (post_pass files output_dir true w).1 = Return tt
  ∧ (∀ p, fs (post_pass files output_dir true w).2 !! p
          = if decide (p ∈ files) then None else fs w !! p)
  ∧ removed (trace (post_pass files output_dir true w).2)
    = removed (trace w) ++ files.
Proof.
  intros Hnd. revert w.
  induction Hnd as [|g rest Hg Hnd IH]; intros w Hexp Hout Hreg.
  - split; [done|]. split; [|by rewrite app_nil_r].
    intros p. case_decide as Hp; [by apply elem_of_nil in Hp | done].
  - rewrite post_pass_cons.
    destruct (Hout g) as [n_out Hno]; [left|]. rewrite Hno.
    destruct (Hreg g) as (n & Hn & Hk); [left|]. rewrite Hn, Hk.
    destruct (IH (World (delete g (fs w)) (trace w ++ [EvRemove g])))
      as (Hr & Hfs & Hrm).
    + intros a b Ha Hb. apply Hexp; by right.
    + intros g' Hin. simpl. rewrite lookup_delete_ne; [apply Hout; by right|].
      intros Heq. apply (Hexp g g'); [left | by right | done].
    + intros g' Hin. destruct (Hreg g') as (n' & Hn' & Hk'); [by right|].
      exists n'. simpl. rewrite lookup_delete_ne; [done|]. by intros ->.
    + split; [done|]. split.
      * intros p. rewrite Hfs. simpl. destruct (decide (p = g)) as [->|Hpg].
        { rewrite (decide_True (P := g ∈ g :: rest)) by left.
          case_decide; [done | by rewrite lookup_delete_eq]. }
        rewrite lookup_delete_ne by done.
        case_decide as H1; case_decide as H2; try done.
        -- exfalso. apply H2. by right.
        -- by apply elem_of_cons in H2 as [?|?].
      * rewrite Hrm. simpl. by rewrite removed_snoc, <- app_assoc.
Qed.

End PostPass.

(** * [process_images], phase by phase *)

Section ProcessImages.

Variable subprocess :
  list string → filesystem → option CompletedProcess * filesystem.

Lemma listdir_cases (d : Path) (w : world) :
  listdir d w = (Return (entries (fs w) d), w)
  ∨ ∃ e, listdir d w = (Raise e, w) ∧ is_exception e.
Proof.
  unfold listdir. destruct (fs w !! d) as [n|]; [destruct (is_directory n)|].
  - by left.
  - right. by eexists.
  - right. by eexists.
Qed.

Lemma listdir_is_dir (d : Path) (w : world) :
  (is_dir d w).1 = Return true →
  listdir d w = (Return (entries (fs w) d), w).
Proof.
  unfold is_dir, listdir. simpl. destruct (fs w !! d) as [n|]; simpl; [|done].
  by intros [= ->].
Qed.

(** The run as the composition of its phases. *)
Lemma process_images_run (imgs_dir output_dir : Path) (rm : bool) (w : world) :
  process_images subprocess imgs_dir output_dir rm w =
  match pool subprocess imgs_dir output_dir w with
  | (Return (png_files, futures), w1) =>
      match wait_results futures w1 with
      | (Return true, w2) =>
          match post_pass png_files output_dir rm w2 with
          | (Return _, w3) => (Return true, w3)
          | (Raise e, w3) => (Raise e, w3)
          end
      | (Return false, w2) => (Return false, w2)
      | (Raise e, w2) => (Raise e, w2)
      end
  | (Raise e, w1) => (Raise e, w1)
  end.
Proof.
  unfold process_images, pool. rewrite !bind_run.
  destruct (listdir imgs_dir w) as [[names|e] w0]; [|done].
  rewrite !bind_run.
  destruct (submit_all _ _ _ _) as [[futures|e] w1]; [|done].
  cbn [mret M_ret]. rewrite bind_run.
  destruct (wait_results futures w1) as [[[|]|e] w2]; [|done..].
  rewrite bind_run. by destruct (post_pass _ _ _ _) as [[[]|e] w3].
Qed.

(** When the listing succeeds the pool runs on the batch ... *)
Lemma pool_listed (imgs_dir output_dir : Path) (w : world) :
  listdir imgs_dir w = (Return (entries (fs w) imgs_dir), w) →
  batch imgs_dir w = png_paths imgs_dir (entries (fs w) imgs_dir)
  ∧ submit_all subprocess (batch imgs_dir w) output_dir w
    = (Return (conversions subprocess imgs_dir output_dir w),
       after_conversions subprocess imgs_dir output_dir w)
  ∧ pool subprocess imgs_dir output_dir w
    = (Return (batch imgs_dir w, conversions subprocess imgs_dir output_dir w),
       after_conversions subprocess imgs_dir output_dir w).
Proof.
  intros Hl. unfold batch, conversions, after_conversions, pool.
  rewrite !bind_run, Hl, !bind_run.
  destruct (submit_all_returns subprocess
              (png_paths imgs_dir (entries (fs w) imgs_dir)) output_dir w)
    as (futures & Hf & _).
  by destruct (submit_all _ _ _ _) as [[futures'|e] w1]; simplify_eq/=.
Qed.

(** ... and when it fails there is neither a batch nor a conversion. *)
Lemma pool_unlisted (imgs_dir output_dir : Path) (w : world) (e : exn) :
  listdir imgs_dir w = (Raise e, w) →
  batch imgs_dir w = []
  ∧ conversions subprocess imgs_dir output_dir w = []
  ∧ pool subprocess imgs_dir output_dir w = (Raise e, w).
Proof.
  intros Hl. unfold batch, conversions, pool. by rewrite !bind_run, Hl.
Qed.

Lemma NoDup_batch (imgs_dir : Path) (w : world) : NoDup (batch imgs_dir w).
Proof.
  unfold batch. destruct (listdir_cases imgs_dir w) as [-> | (e & -> & _)].
  - apply NoDup_png_paths, NoDup_entries.
  - constructor.
Qed.

(** A future either holds a result or an exception. *)
Lemma succeeded_or_failed (future : outcome string * string) :
  succeeded future ∨ failed future.
Proof. destruct future as [[r|e] file]; [left | right]; by eexists. Qed.

(** Among futures of which one failed, there is a first that did. *)
Lemma first_failure (futures : list (outcome string * string)) :
  Exists failed futures →
  ∃ before future rest,
    futures = before ++ future :: rest
    ∧ Forall succeeded before ∧ failed future.
Proof.
  induction futures as [|future futures IH]; intros Hex.
  - by apply Exists_nil in Hex.
  - destruct (succeeded_or_failed future) as [Hs|Hf].
    + apply Exists_cons in Hex as [[e He]|Hex].
      { destruct Hs as [r Hr]. congruence. }
      destruct (IH Hex) as (before & fut & rest & -> & Hb & Hfut).
      exists (future :: before), fut, rest.
      split; [done|]. split; [by constructor | done].
    + exists [], future, futures. split; [done|]. split; [constructor | done].
Qed.

(** The commands the pool runs: one per input, none skipped. *)
Lemma submit_all_executed (files : list Path) (output_dir : Path) (w : world) :
  executed (trace (submit_all subprocess files output_dir w).2)
  = executed (trace w) ++ ((λ f, magick_command f output_dir) <$> files).
Proof.
  revert w. induction files as [|file rest IH]; intros w.
  - simpl. by rewrite app_nil_r.
  - rewrite submit_all_cons.
    specialize (IH (run_magick subprocess file output_dir w).2).
    assert (executed (trace (run_magick subprocess file output_dir w).2)
            = executed (trace w) ++ [magick_command file output_dir]) as Hrun.
    { rewrite run_magick_cases. cbv zeta. unfold executed.
      destruct (subprocess _ _) as [[result|] m1]; simpl;
        repeat first [ case_bool_decide | case_match ]; simpl;
        rewrite ?omap_app; simpl; by rewrite ?app_nil_r. }
    destruct (submit_all _ _ _ _) as [[futures'|e] w2]; simpl in *;
      by rewrite IH, Hrun, <- app_assoc.
Qed.

End ProcessImages.

(** * The batch properties *)

(** C1.  In a run in which at least one conversion fails, [process_images]
    returns [False] and never calls [os.remove]: the file system it leaves
    is the one the conversions left, so every input is kept, those that
    were converted included. *)
Theorem failed_conversion_removes_nothing
    (subprocess : list string → filesystem → option CompletedProcess * filesystem)
    (imgs_dir output_dir : Path) (rm : bool) (w : world)
    (future : outcome string * string) :
  future ∈ conversions subprocess imgs_dir output_dir w →
  failed future →
  (process_images subprocess imgs_dir output_dir rm w).1 = Return false
  ∧ removed (trace (process_images subprocess imgs_dir output_dir rm w).2)
    = removed (trace w)
  ∧ fs (process_images subprocess imgs_dir output_dir rm w).2
    = fs (after_conversions subprocess imgs_dir output_dir w).
Proof.
  intros Hin Hfail.
  destruct (listdir_cases imgs_dir w) as [Hl | (e & Hl & _)].
  - destruct (pool_listed subprocess imgs_dir output_dir w Hl) as (_ & Hsub & Hpool).
    rewrite process_images_run, Hpool.
    destruct (first_failure (conversions subprocess imgs_dir output_dir w))
      as (before & fut & rest & Heq & Hbefore & [e He]).
    { apply Exists_exists. eauto. }
    pose proof (submit_all_exceptions subprocess _ _ _ _ (f_equal fst Hsub)) as Hexc.
    rewrite Heq in Hexc.
    apply Forall_app in Hexc as [_ [Hexc _]%Forall_cons].
    destruct (wait_results_first_failure before rest fut
                (after_conversions subprocess imgs_dir output_dir w) Hbefore)
      as [Hres _]; [by eauto|].
    destruct (wait_results_fs (before ++ fut :: rest)
                (after_conversions subprocess imgs_dir output_dir w)) as [Hfs Hrm].
    rewrite <- Heq in Hres, Hfs, Hrm.
    destruct (wait_results _ _) as [o w2]. simpl in *. subst o.
    simpl. split; [done|]. split; [|done]. rewrite Hrm.
    pose proof (submit_all_quiet subprocess (batch imgs_dir w) output_dir w) as [_ Hq].
    by rewrite Hsub in Hq.
  - destruct (pool_unlisted subprocess imgs_dir output_dir w e Hl) as (_ & Hc & _).
    rewrite Hc in Hin. by apply elem_of_nil in Hin.
Qed.

Lemma failed_conversion_removes_nothing_witness :
  (process_images Examples.reject_b ["in"] ["out"] true Examples.boot).1
  = Return false
  ∧ removed (trace (process_images Examples.reject_b ["in"] ["out"] true
                      Examples.boot).2) = [].
Proof.
  pose proof (failed_conversion_removes_nothing Examples.reject_b ["in"] ["out"]
                true Examples.boot
                (default (Return "", "")
                   (head (conversions Examples.reject_b ["in"] ["out"] Examples.boot))))
    as H.
  destruct H as (Hres & Hrm & _).
  - vm_compute. left.
  - vm_compute. by eexists.
  - exact (conj Hres Hrm).
Defined.

(** C6.  Without [remove_input_on_success], [process_images] never calls
    [os.remove], whether the conversions succeed or fail: the file system
    it leaves is the one the conversions left, and with a converter that
    deletes nothing every input of the batch is still there. *)
Theorem inputs_kept_without_flag
    (subprocess : list string → filesystem → option CompletedProcess * filesystem)
    (imgs_dir output_dir : Path) (w : world) :
  removed (trace (process_images subprocess imgs_dir output_dir false w).2)
  = removed (trace w)
  ∧ fs (process_images subprocess imgs_dir output_dir false w).2
    = fs (after_conversions subprocess imgs_dir output_dir w)
  ∧ (preserving subprocess →
     ∀ p, p ∈ batch imgs_dir w →
          is_Some (fs (process_images subprocess imgs_dir output_dir false w).2
                   !! p)).
Proof.
  assert (removed (trace (process_images subprocess imgs_dir output_dir false w).2)
          = removed (trace w)
          ∧ fs (process_images subprocess imgs_dir output_dir false w).2
            = fs (after_conversions subprocess imgs_dir output_dir w)) as [Hrm Hfs].
  { destruct (listdir_cases imgs_dir w) as [Hl | (e & Hl & _)].
    - destruct (pool_listed subprocess imgs_dir output_dir w Hl)
        as (_ & Hsub & Hpool).
      rewrite process_images_run, Hpool.
      pose proof (submit_all_quiet subprocess (batch imgs_dir w) output_dir w)
        as [_ Hq].
      rewrite Hsub in Hq. simpl in Hq.
      destruct (wait_results_fs (conversions subprocess imgs_dir output_dir w)
                  (after_conversions subprocess imgs_dir output_dir w))
        as [Hfs Hrm].
      destruct (wait_results _ _) as [[[|]|e] w2]; simpl in *;
        [|split; congruence..].
      destruct (post_pass_keep (batch imgs_dir w) output_dir w2) as (Hr & Hfs' & Hrm').
      destruct (post_pass _ _ _ _) as [[[]|e] w3]; simpl in *; split; congruence.
    - destruct (pool_unlisted subprocess imgs_dir output_dir w e Hl) as (_ & _ & Hpool).
      unfold after_conversions. by rewrite process_images_run, Hpool. }
  split; [done|]. split; [done|].
  intros Hsub p Hp. rewrite Hfs.
  destruct (listdir_cases imgs_dir w) as [Hl | (e & Hl & _)].
  - destruct (pool_listed subprocess imgs_dir output_dir w Hl) as (Hb & Hrun & _).
    rewrite Hb in Hp. apply elem_of_png_paths in Hp as (f & -> & _ & Hin).
    apply elem_of_entries in Hin as [n Hn].
    pose proof (submit_all_extends subprocess (batch imgs_dir w) output_dir w Hsub)
      as Hext.
    rewrite Hrun in Hext. destruct (Hext _ _ Hn) as (n' & Hn' & _). by exists n'.
  - destruct (pool_unlisted subprocess imgs_dir output_dir w e Hl) as (Hb & _).
    rewrite Hb in Hp. by apply elem_of_nil in Hp.
Qed.

Lemma convert_preserving : preserving Examples.convert.
Proof.
  intros command m q nq Hq. unfold Examples.convert.
  repeat case_match; simpl; eauto.
  match goal with
  | |- context [<[?k := _]> m] => destruct (decide (k = q)) as [Heq|Hne]
  end.
  - rewrite Heq in *. rewrite lookup_insert_eq. eexists. split; [done|]. simpl.
    match goal with H : from_option _ _ _ = false |- _ => rewrite Hq in H end.
    done.
  - rewrite lookup_insert_ne by done. eauto.
Qed.

Lemma inputs_kept_without_flag_witness :
  is_Some (fs (process_images Examples.convert ["in"] ["out"] false
                 Examples.boot).2 !! ["in"; "a.png"]).
Proof.
  apply (inputs_kept_without_flag Examples.convert ["in"] ["out"] Examples.boot).
  - apply convert_preserving.
  - apply (bool_decide_unpack _). vm_compute. exact I.
Defined.

(** C2 fails as stated: when every image is rejected, the failure of the
    second conversion is not on standard output. *)
Lemma not_every_failure_reported :
  ¬ reports_every_failure Examples.reject ["in"] ["out"] false Examples.boot.
Proof.
  intros H.
  specialize (H (default (Return "", "")
                   (conversions Examples.reject ["in"] ["out"] Examples.boot !! 1%nat))).
  assert (printed (trace (process_images Examples.reject ["in"] ["out"] false
                            Examples.boot).2)
          = ["Error processing file in/b.png: 'magick' failed on file in/b.png with error:\nmagick: improper image header"])
    as Hprinted by (vm_compute; reflexivity).
  rewrite Hprinted in H.
  assert ("Error processing file in/a.png: 'magick' failed on file in/a.png with error:\nmagick: improper image header"
          ∈ ["Error processing file in/b.png: 'magick' failed on file in/b.png with error:\nmagick: improper image header"])
    as Hin.
  { apply H.
    - vm_compute. right. left.
    - vm_compute. by eexists. }
  by apply list_elem_of_singleton in Hin.
Qed.

(** C2, amended.  The conversions all run, none is cancelled; the loop over
    the futures then reports the conversions that precede the first failed
    one in submission order, reports that failure with its error, and
    [process_images] returns [False] without looking at the futures that
    follow. *)
Theorem first_failure_reported
    (subprocess : list string → filesystem → option CompletedProcess * filesystem)
    (imgs_dir output_dir : Path) (rm : bool) (w : world)
    (before rest : list (outcome string * string))
    (future : outcome string * string) :
  conversions subprocess imgs_dir output_dir w = before ++ future :: rest →
  Forall succeeded before →
  failed future →
  (process_images subprocess imgs_dir output_dir rm w).1 = Return false
  ∧ printed (trace (process_images subprocess imgs_dir output_dir rm w).2)
    = printed (trace w) ++ (report <$> before) ++ [report future]
  ∧ executed (trace (process_images subprocess imgs_dir output_dir rm w).2)
    = executed (trace w)
      ++ ((λ f, magick_command f output_dir) <$> batch imgs_dir w).
Proof.
  intros Heq Hbefore [e He].
  destruct (listdir_cases imgs_dir w) as [Hl | (e' & Hl & _)].
  - destruct (pool_listed subprocess imgs_dir output_dir w Hl) as (_ & Hsub & Hpool).
    rewrite process_images_run, Hpool.
    pose proof (submit_all_exceptions subprocess _ _ _ _ (f_equal fst Hsub)) as Hexc.
    rewrite Heq in Hexc.
    apply Forall_app in Hexc as [_ [Hexc _]%Forall_cons].
    destruct (wait_results_first_failure before rest future
                (after_conversions subprocess imgs_dir output_dir w) Hbefore)
      as [Hres Hpr]; [by eauto|].
    pose proof (wait_results_executed (before ++ future :: rest)
                  (after_conversions subprocess imgs_dir output_dir w)) as Hex.
    rewrite <- Heq in Hres, Hpr, Hex.
    destruct (wait_results _ _) as [o w2]. simpl in *. subst o. simpl.
    split; [done|].
    pose proof (submit_all_quiet subprocess (batch imgs_dir w) output_dir w) as [Hq _].
    pose proof (submit_all_executed subprocess (batch imgs_dir w) output_dir w) as Hx.
    rewrite Hsub in Hq, Hx. simpl in Hq, Hx. split; congruence.
  - destruct (pool_unlisted subprocess imgs_dir output_dir w e' Hl) as (_ & Hc & _).
    rewrite Hc in Heq. by destruct before.
Qed.

Lemma first_failure_reported_witness :
  (process_images Examples.reject ["in"] ["out"] false Examples.boot).1
  = Return false
  ∧ printed (trace (process_images Examples.reject ["in"] ["out"] false
                      Examples.boot).2)
    = ["Error processing file in/b.png: 'magick' failed on file in/b.png with error:\nmagick: improper image header"].
Proof.
  pose proof (first_failure_reported Examples.reject ["in"] ["out"] false
                Examples.boot []
                (drop 1 (conversions Examples.reject ["in"] ["out"] Examples.boot))
                (default (Return "", "")
                   (head (conversions Examples.reject ["in"] ["out"] Examples.boot))))
    as H.
  destruct H as (Hres & Hpr & _).
  - vm_compute. reflexivity.
  - constructor.
  - vm_compute. by eexists.
  - split; [exact Hres|]. rewrite Hpr. vm_compute. reflexivity.
Defined.

(** C5 fails as stated: with a converter that loses the artifact of
    another image, every conversion succeeds and the flag is set, yet
    [in/b.png] is kept, by the [else] branch of the loop over the inputs. *)
Lemma not_every_input_removed :
  ¬ removes_every_input Examples.clobber ["in"] ["out"] Examples.boot.
Proof.
  intros H.
  assert (fs (process_images Examples.clobber ["in"] ["out"] true
                Examples.boot).2 !! ["in"; "b.png"] = None) as Hgone.
  { apply H.
    - vm_compute. repeat (constructor; [by eexists|]). constructor.
    - apply (bool_decide_unpack _). vm_compute. exact I. }
  vm_compute in Hgone. discriminate Hgone.
Qed.

(** C5, amended.  With [remove_input_on_success] set, a converter that
    deletes no entry and leaves the kind of every entry alone, a batch of
    regular files and every conversion succeeding, [process_images] hands
    every input of the batch to [os.remove], in order, and none of them is
    left in the file system; it returns [True] whenever the listing was
    possible. *)
Theorem all_inputs_removed_on_success
    (subprocess : list string → filesystem → option CompletedProcess * filesystem)
    (imgs_dir output_dir : Path) (w : world) :
  preserving subprocess →
  (∀ p, p ∈ batch imgs_dir w → is_regular (fs w) p) →
  Forall succeeded (conversions subprocess imgs_dir output_dir w) →
  (∀ p, p ∈ batch imgs_dir w →
        fs (process_images subprocess imgs_dir output_dir true w).2 !! p = None)
  ∧ removed (trace (process_images subprocess imgs_dir output_dir true w).2)
    = removed (trace w) ++ batch imgs_dir w
  ∧ ((is_dir imgs_dir w).1 = Return true →
     (process_images subprocess imgs_dir output_dir true w).1 = Return true).
Proof.
  intros Hsub Hreg Hok.
  destruct (listdir_cases imgs_dir w) as [Hl | (e & Hl & _)].
  - destruct (pool_listed subprocess imgs_dir output_dir w Hl) as (Hb & Hrun & Hpool).
    rewrite process_images_run, Hpool.
    destruct (wait_results_all _ (after_conversions subprocess imgs_dir output_dir w) Hok)
      as [Hres _].
    destruct (wait_results_fs (conversions subprocess imgs_dir output_dir w)
                (after_conversions subprocess imgs_dir output_dir w)) as [Hfs Hrm].
    destruct (wait_results _ _) as [o w2]. simpl in *. subst o.
    pose proof (submit_all_extends subprocess (batch imgs_dir w) output_dir w Hsub)
      as Hext.
    pose proof (submit_all_artifacts subprocess (batch imgs_dir w) output_dir w _
                  Hsub (f_equal fst Hrun) Hok) as Hart.
    pose proof (submit_all_quiet subprocess (batch imgs_dir w) output_dir w) as [_ Hq].
    rewrite Hrun in Hext, Hart, Hq. simpl in Hext, Hart, Hq.
    destruct (post_pass_removes (batch imgs_dir w) output_dir w2) as (Hr & Hgone & Hrs).
    + apply NoDup_batch.
    + intros g g' Hg _ Heq. rewrite Hb in Hg. rewrite <- Heq in Hg.
      by apply expected_file_not_input in Hg.
    + intros g Hg. rewrite Hfs. by apply Hart.
    + intros g Hg. rewrite Hfs. destruct (Hreg g Hg) as (n & Hn & Hk).
      destruct (Hext _ _ Hn) as (n' & Hn' & Hk'). exists n'. split; congruence.
    + destruct (post_pass _ _ _ _) as [[[]|e] w3]; simpl in *; [|done].
      split; [|split; [congruence | done]].
      intros p Hp. rewrite Hgone. by rewrite decide_True.
  - destruct (pool_unlisted subprocess imgs_dir output_dir w e Hl) as (Hb & _ & Hpool).
    rewrite process_images_run, Hpool, Hb. simpl.
    split; [intros p Hp; by apply elem_of_nil in Hp|].
    split; [by rewrite app_nil_r|].
    intros Hdir. apply listdir_is_dir in Hdir. congruence.
Qed.

Lemma all_inputs_removed_on_success_witness :
  fs (process_images Examples.convert ["in"] ["out"] true Examples.boot).2
    !! ["in"; "a.png"] = None
  ∧ removed (trace (process_images Examples.convert ["in"] ["out"] true
                      Examples.boot).2)
    = [] ++ batch ["in"] Examples.boot
  ∧ (process_images Examples.convert ["in"] ["out"] true Examples.boot).1
    = Return true.
Proof.
  destruct (all_inputs_removed_on_success Examples.convert ["in"] ["out"]
              Examples.boot) as (Hgone & Hrm & Hres).
  - apply convert_preserving.
  - intros p Hp.
    assert (batch ["in"] Examples.boot = [["in"; "b.png"]; ["in"; "a.png"]])
      as Hb by (vm_compute; reflexivity).
    rewrite Hb in Hp.
    apply elem_of_cons in Hp as [->|Hp].
    { exists (Node false 30 40). split; vm_compute; reflexivity. }
    apply list_elem_of_singleton in Hp as ->.
    exists (Node false 10 20). split; vm_compute; reflexivity.
  - vm_compute. repeat (constructor; [by eexists|]). constructor.
  - split; [|split; [exact Hrm | by apply Hres]].
    apply Hgone. apply (bool_decide_unpack _). vm_compute. exact I.
Defined.

(** C7.  When every conversion reported success but the artifact expected
    for an input is missing once the pool is done, [process_images] never
    hands that input to [os.remove], with or without the flag, and the
    input is as the conversions left it; and provided the inputs the loop
    does remove are regular files, the run prints the warning for the
    missing artifact and still returns [True]. *)
Theorem missing_artifact_keeps_input
    (subprocess : list string → filesystem → option CompletedProcess * filesystem)
    (imgs_dir output_dir : Path) (rm : bool) (w : world) (f : Path) :
  Forall succeeded (conversions subprocess imgs_dir output_dir w) →
  f ∈ batch imgs_dir w →
  fs (after_conversions subprocess imgs_dir output_dir w)
    !! expected_file output_dir f = None →
  fs (process_images subprocess imgs_dir output_dir rm w).2 !! f
  = fs (after_conversions subprocess imgs_dir output_dir w) !! f
  ∧ (∃ rs, removed (trace (process_images subprocess imgs_dir output_dir rm w).2)
           = removed (trace w) ++ rs ∧ f ∉ rs)
  ∧ ((rm = false ∨
      ∀ g, g ∈ batch imgs_dir w →
           is_Some (fs (after_conversions subprocess imgs_dir output_dir w)
                    !! expected_file output_dir g) →
           is_regular (fs (after_conversions subprocess imgs_dir output_dir w)) g) →
     (process_images subprocess imgs_dir output_dir rm w).1 = Return true
     ∧ keeping_original (expected_file output_dir f)
       ∈ printed (trace (process_images subprocess imgs_dir output_dir rm w).2)).
Proof.
  intros Hok Hf Hmissing.
  destruct (listdir_cases imgs_dir w) as [Hl | (e & Hl & _)].
  - destruct (pool_listed subprocess imgs_dir output_dir w Hl) as (Hb & Hrun & Hpool).
    rewrite process_images_run, Hpool.
    destruct (wait_results_all _ (after_conversions subprocess imgs_dir output_dir w) Hok)
      as [Hres _].
    destruct (wait_results_fs (conversions subprocess imgs_dir output_dir w)
                (after_conversions subprocess imgs_dir output_dir w)) as [Hfs Hrm].
    destruct (wait_results _ _) as [o w2]. simpl in *. subst o.
    pose proof (submit_all_quiet subprocess (batch imgs_dir w) output_dir w) as [_ Hq].
    rewrite Hrun in Hq. simpl in Hq. rewrite <- Hfs in *.
    destruct (post_pass_retains (batch imgs_dir w) output_dir rm w2 f Hmissing)
      as (Hkept & rs & Hrs & Hnot).
    pose proof (post_pass_returns (batch imgs_dir w) output_dir rm w2
                  (NoDup_batch imgs_dir w)) as Hret.
    destruct (post_pass_warns (batch imgs_dir w) output_dir rm w2) as [_ Hwarn].
    destruct (post_pass _ _ _ _) as [[[]|e] w3]; simpl in *.
    + split; [done|]. split; [exists rs; split; [congruence | done]|].
      intros _. split; [done|]. by apply Hwarn.
    + split; [done|]. split; [exists rs; split; [congruence | done]|].
      intros Hsafe. by specialize (Hret Hsafe).
  - destruct (pool_unlisted subprocess imgs_dir output_dir w e Hl) as (Hb & _).
    rewrite Hb in Hf. by apply elem_of_nil in Hf.
Qed.

Lemma missing_artifact_keeps_input_witness :
  fs (process_images Examples.clobber ["in"] ["out"] true Examples.boot).2
    !! ["in"; "b.png"] = Some (Node false 30 40)
  ∧ (process_images Examples.clobber ["in"] ["out"] true Examples.boot).1
    = Return true
  ∧ "Error: Expected file 'out/b.webp' not found. Keeping original file."
    ∈ printed (trace (process_images Examples.clobber ["in"] ["out"] true
                        Examples.boot).2).
Proof.
  destruct (missing_artifact_keeps_input Examples.clobber ["in"] ["out"] true
              Examples.boot ["in"; "b.png"]) as (Hkept & _ & Hrun).
  - vm_compute. repeat (constructor; [by eexists|]). constructor.
  - apply (bool_decide_unpack _). vm_compute. exact I.
  - vm_compute. reflexivity.
  - split; [rewrite Hkept; vm_compute; reflexivity|].
    apply Hrun. right. intros g Hg _.
    assert (batch ["in"] Examples.boot = [["in"; "b.png"]; ["in"; "a.png"]])
      as Hb by (vm_compute; reflexivity).
    rewrite Hb in Hg.
    apply elem_of_cons in Hg as [->|Hg].
    { exists (Node false 30 40). split; vm_compute; reflexivity. }
    apply list_elem_of_singleton in Hg as ->.
    exists (Node false 10 20). split; vm_compute; reflexivity.
Defined.

(** * [main] and the exit status *)

Section Main.

Variable subprocess :
  list string → filesystem → option CompletedProcess * filesystem.

(** A path that is not a directory ends [main] after one line of output:
    no command is run and no file is touched, and since [main] merely
    returns, the interpreter exits with status 0. *)
Lemma main_input_not_a_directory (a : args) (w : world) :
  (is_dir (input a) w).1 = Return false →
  main subprocess a w
  = (Return tt,
     World (fs w) (trace w ++ [EvPrint (not_a_directory (input a))])).
Proof.
  unfold main, is_dir. simpl. intros [= Hin].
  rewrite bind_run. cbv beta. rewrite Hin. reflexivity.
Qed.

Lemma main_output_not_a_directory (a : args) (w : world) :
  (is_dir (input a) w).1 = Return true →
  (is_dir (output a) w).1 = Return false →
  main subprocess a w
  = (Return tt,
     World (fs w) (trace w ++ [EvPrint (not_a_directory (output a))])).
Proof.
  unfold main, is_dir. simpl. intros [= Hin] [= Hout].
  rewrite bind_run. cbv beta. rewrite Hin. cbn [negb].
  rewrite bind_run. cbv beta. rewrite Hout. reflexivity.
Qed.

(** With two directories the exit status is that of [process_images]:
    0 when it returned [True], 1 when it returned [False]. *)
Lemma main_exit_status (a : args) (w : world) (result : bool) :
  (is_dir (input a) w).1 = Return true →
  (is_dir (output a) w).1 = Return true →
  (process_images subprocess (input a) (output a) (remove_input a) w).1
  = Return result →
  exit_status (main subprocess a w).1 = if result then 0 else 1.
Proof.
  unfold main, is_dir. simpl. intros [= Hin] [= Hout].
  rewrite bind_run. cbv beta. rewrite Hin. cbn [negb].
  rewrite bind_run. cbv beta. rewrite Hout. cbn [negb].
  rewrite bind_run.
  destruct (process_images _ _ _ _ _) as [o w1]. simpl. intros ->.
  by destruct result.
Qed.

End Main.

(** C3, at the input that breaks it.  [--input nowhere] names no directory:
    [main] prints the error and returns, nothing is run or changed on disk,
    and the exit status is 0 where the claim has 1. *)
Theorem main_invalid_directory_exits_zero :
  exit_status (main Examples.convert (Args ["nowhere"] ["out"] true)
                 Examples.boot).1 = 0
  ∧ trace (main Examples.convert (Args ["nowhere"] ["out"] true)
             Examples.boot).2
    = [EvPrint "Error: 'nowhere' is not a directory."]
  ∧ fs (main Examples.convert (Args ["nowhere"] ["out"] true) Examples.boot).2
    = Examples.disk.
Proof.
  rewrite main_input_not_a_directory by (vm_compute; reflexivity).
  split; [|split]; reflexivity.
Qed.

(** * Paths and listing *)

(** C10.  The filter is a case-sensitive suffix test: a name is selected
    exactly when it is some string followed by the four characters [.png];
    a name ending in any other four characters, [.PNG] or [.Png] say, is
    left out. *)
Theorem png_filter_case_sensitive (imgs_dir : Path) (names : list string) :
  (∀ f, imgs_dir // f ∈ png_paths imgs_dir names ↔
        f ∈ names ∧ ∃ base, f = base +:+ ".png")
  ∧ (∀ base ext, String.length ext = 4%nat → ext ≠ ".png" →
       imgs_dir // (base +:+ ext) ∉ png_paths imgs_dir names).
Proof.
  assert (∀ f, imgs_dir // f ∈ png_paths imgs_dir names ↔
               f ∈ names ∧ ∃ base, f = base +:+ ".png") as Hiff.
  { intros f. rewrite elem_of_png_paths. split.
    - intros (f' & Heq & Hf & Hin). apply joinpath_inj in Heq as [_ ->].
      split; [done|]. by apply endswith_spec.
    - intros [Hin Hf]. exists f. split; [done|]. split; [|done].
      by apply endswith_spec. }
  split; [done|].
  intros base ext Hlen Hne [_ Hf]%Hiff. apply endswith_spec in Hf.
  by rewrite endswith_other_suffix in Hf.
Qed.

Lemma png_filter_case_sensitive_witness :
  (["in"] // ("C" +:+ ".PNG") ∉ png_paths ["in"] ["a.png"; "C.PNG"])
  ∧ ["in"] // "a.png" ∈ png_paths ["in"] ["a.png"; "C.PNG"].
Proof.
  destruct (png_filter_case_sensitive ["in"] ["a.png"; "C.PNG"]) as [Hiff Hcase].
  split.
  - apply Hcase; [reflexivity | discriminate].
  - apply Hiff. split; [left | by exists "a"].
Defined.

(** * Further properties of [run_magick] *)

(** X1.  A conversion that raises has called neither [os.utime] nor anything
    else after the converter: the file system is the one the converter
    left, the log has the command and nothing more, and the exception is
    one that [except Exception] catches. *)
Theorem failed_conversion_touches_nothing
    (subprocess : list string → filesystem → option CompletedProcess * filesystem)
    (file output_dir : Path) (w : world) (e : exn) :
  (run_magick subprocess file output_dir w).1 = Raise e →
  fs (run_magick subprocess file output_dir w).2
  = (subprocess (magick_command file output_dir) (fs w)).2
  ∧ trace (run_magick subprocess file output_dir w).2
    = trace w ++ [EvExec (magick_command file output_dir)]
  ∧ is_exception e.
Proof.
  intros Hr. split; [|split; [|by eapply run_magick_exception]];
    revert Hr; rewrite run_magick_cases; cbv zeta;
    destruct (subprocess _ _) as [[result|] m1]; simpl;
    repeat first [ case_bool_decide | case_match ]; simpl; done.
Qed.

Lemma failed_conversion_touches_nothing_witness :
  fs (run_magick Examples.reject ["in"; "a.png"] ["out"] Examples.boot).2
  = (Examples.reject (magick_command ["in"; "a.png"] ["out"])
       (fs Examples.boot)).2.
Proof.
  refine (proj1 (failed_conversion_touches_nothing Examples.reject
                   ["in"; "a.png"] ["out"] Examples.boot _ _)).
  vm_compute. reflexivity.
Defined.

(** X2.  A converter that exits with status 0 but leaves no artifact does not
    make the conversion a success: [os.utime] raises [FileNotFoundError],
    the one without a file name, and the world is as the converter left
    it. *)
Theorem zero_exit_without_artifact_fails
    (subprocess : list string → filesystem → option CompletedProcess * filesystem)
    (file output_dir : Path) (w : world)
    (result : CompletedProcess) (m1 : filesystem) (n : node) :
  subprocess (magick_command file output_dir) (fs w) = (Some result, m1) →
  returncode result = 0 →
  m1 !! file = Some n →
  m1 !! output_webp_file file output_dir = None →
  run_magick subprocess file output_dir w
  = (Raise FileNotFoundErrorNoFilename,
     World m1 (trace w ++ [EvExec (magick_command file output_dir)])).
Proof.
  intros Hsub Hrc Hn Hout. rewrite run_magick_cases. cbv zeta. rewrite Hsub.
  simpl. rewrite bool_decide_eq_false_2 by lia. by rewrite Hn, Hout.
Qed.

Lemma zero_exit_without_artifact_fails_witness :
  (run_magick Examples.idle ["in"; "a.png"] ["out"] Examples.boot).1
  = Raise FileNotFoundErrorNoFilename.
Proof.
  rewrite (zero_exit_without_artifact_fails Examples.idle ["in"; "a.png"] ["out"]
             Examples.boot _ _ (Node false 10 20) eq_refl eq_refl);
    [reflexivity | vm_compute; reflexivity | vm_compute; reflexivity].
Defined.

(** * Further properties of [process_images] *)

Section Run.

Variable subprocess :
  list string → filesystem → option CompletedProcess * filesystem.

Lemma executed_snoc (tr : list event) (ev : event) :
  executed (tr ++ [ev])
  = executed tr ++ match ev with EvExec c => [c] | _ => [] end.
Proof. unfold executed. rewrite omap_app. by destruct ev. Qed.

(** The loop over the inputs runs no command. *)
Lemma post_pass_executed (files : list Path) (output_dir : Path) (rm : bool)
    (w : world) :
  executed (trace (post_pass files output_dir rm w).2) = executed (trace w).
Proof.
  revert w. induction files as [|g rest IH]; intros w; [done|].
  rewrite post_pass_cons.
  repeat case_match; try done; rewrite IH; simpl;
    by rewrite executed_snoc, app_nil_r.
Qed.

(** What the loop over the inputs can change: the inputs it removed, a
    sub-sequence of the list it was given, and nothing else. *)
Lemma post_pass_frame (files : list Path) (output_dir : Path) (rm : bool)
    (w : world) :
  ∃ rs, removed (trace (post_pass files output_dir rm w).2)
        = removed (trace w) ++ rs
        ∧ rs `sublist_of` files
        ∧ (rm = false → rs = [])
        ∧ (∀ p, p ∈ rs → fs (post_pass files output_dir rm w).2 !! p = None)
        ∧ (∀ p, p ∉ rs → fs (post_pass files output_dir rm w).2 !! p = fs w !! p).
Proof.
  revert w. induction files as [|g rest IH]; intros w.
  - exists []. rewrite app_nil_r. repeat split; try done.
    intros p Hp. by apply elem_of_nil in Hp.
  - rewrite post_pass_cons.
    assert (∃ rs, removed (trace w) = removed (trace w) ++ rs
                  ∧ rs `sublist_of` g :: rest ∧ (rm = false → rs = [])
                  ∧ (∀ p, p ∈ rs → fs w !! p = None)
                  ∧ (∀ p, p ∉ rs → fs w !! p = fs w !! p)) as Hstop.
    { exists []. rewrite app_nil_r. split; [done|].
      split; [apply sublist_nil_l|]. split; [done|]. split; [|done].
      intros p Hp. by apply elem_of_nil in Hp. }
    destruct (fs w !! expected_file output_dir g) as [n_out|].
    + destruct rm.
      * destruct (fs w !! g) as [n|] eqn:Hn; [|done].
        destruct (is_directory n); [done|].
        destruct (IH (World (delete g (fs w)) (trace w ++ [EvRemove g])))
          as (rs & Hrm & Hsub & _ & Hgone & Hkept).
        simpl in *. exists (g :: rs). rewrite Hrm, removed_snoc, <- app_assoc.
        split; [done|]. split; [by constructor|]. split; [done|]. split.
        -- intros p Hp. destruct (decide (p ∈ rs)) as [Hin|Hnin]; [by apply Hgone|].
           apply elem_of_cons in Hp as [->|Hp]; [|done].
           by rewrite Hkept, lookup_delete_eq.
        -- intros p Hp. apply not_elem_of_cons in Hp as [Hne Hp].
           by rewrite Hkept, lookup_delete_ne.
      * destruct (IH w) as (rs & Hrm & Hsub & Hoff & Hgone & Hkept).
        exists rs. split; [done|]. split; [by constructor|]. done.
    + destruct (IH (World (fs w) (trace w ++
          [EvPrint (keeping_original (expected_file output_dir g))])))
        as (rs & Hrm & Hsub & Hoff & Hgone & Hkept).
      simpl in *. exists rs. rewrite Hrm, removed_snoc, app_nil_r.
      split; [done|]. split; [by constructor|]. done.
Qed.

(** When no artifact is missing the loop over the inputs prints nothing. *)
Lemma post_pass_silent (files : list Path) (output_dir : Path) (rm : bool)
    (w : world) :
  (∀ g g', g ∈ files → g' ∈ files → expected_file output_dir g' ≠ g) →
  (∀ g, g ∈ files → is_Some (fs w !! expected_file output_dir g)) →
  printed (trace (post_pass files output_dir rm w).2) = printed (trace w).
Proof.
  revert w. induction files as [|g rest IH]; intros w Hexp Hout; [done|].
  rewrite post_pass_cons. destruct (Hout g) as [n_out Hno]; [left|]. rewrite Hno.
  assert (∀ a b, a ∈ rest → b ∈ rest → expected_file output_dir b ≠ a) as Hexp'.
  { intros a b Ha Hb. apply Hexp; by right. }
  destruct rm; [|apply IH; [done | intros g' Hg'; apply Hout; by right]].
  destruct (fs w !! g) as [n|]; [|done]. destruct (is_directory n); [done|].
  rewrite IH; [simpl; by rewrite printed_snoc, app_nil_r | done |].
  intros g' Hg'. simpl. rewrite lookup_delete_ne; [apply Hout; by right|].
  intros Heq. apply (Hexp g g'); [left | by right | done].
Qed.

(** The futures of conversions that all succeeded hold the input paths. *)
Lemma submit_all_reports (files : list Path) (output_dir : Path) (w : world)
    (futures : list (outcome string * string)) :
  (submit_all subprocess files output_dir w).1 = Return futures →
  Forall succeeded futures →
  report <$> futures = (λ f, "Processed file: " +:+ str f) <$> files.
Proof.
  revert w futures. induction files as [|file rest IH]; intros w futures.
  - by intros [= <-].
  - rewrite submit_all_cons.
    specialize (IH (run_magick subprocess file output_dir w).2).
    destruct (submit_all _ _ _ _) as [[futures'|e] w2]; simpl in *; [|done].
    intros [= <-] [[r Hr] Hok]%Forall_cons. simpl in Hr.
    rewrite !fmap_cons. f_equal; [|by apply IH].
    unfold report. simpl. rewrite Hr.
    by apply run_magick_success in Hr as [-> _].
Qed.

(** A run in which every conversion succeeded, up to the loop over the
    inputs. *)
Lemma process_images_success (imgs_dir output_dir : Path) (rm : bool) (w : world) :
  listdir imgs_dir w = (Return (entries (fs w) imgs_dir), w) →
  Forall succeeded (conversions subprocess imgs_dir output_dir w) →
  ∃ w2, fs w2 = fs (after_conversions subprocess imgs_dir output_dir w)
        ∧ removed (trace w2) = removed (trace w)
        ∧ printed (trace w2)
          = printed (trace w)
            ++ ((λ f, "Processed file: " +:+ str f) <$> batch imgs_dir w)
        ∧ process_images subprocess imgs_dir output_dir rm w
          = match post_pass (batch imgs_dir w) output_dir rm w2 with
            | (Return _, w3) => (Return true, w3)
            | (Raise e, w3) => (Raise e, w3)
            end.
Proof.
  intros Hl Hok.
  destruct (pool_listed subprocess imgs_dir output_dir w Hl) as (Hb & Hrun & Hpool).
  rewrite process_images_run, Hpool.
  destruct (wait_results_all _ (after_conversions subprocess imgs_dir output_dir w) Hok)
    as [Hres Hpr].
  destruct (wait_results_fs (conversions subprocess imgs_dir output_dir w)
              (after_conversions subprocess imgs_dir output_dir w)) as [Hfs Hrm].
  destruct (wait_results _ _) as [o w2]. simpl in *. subst o.
  destruct (submit_all_quiet subprocess (batch imgs_dir w) output_dir w) as [Hqp Hqr].
  rewrite Hrun in Hqp, Hqr. simpl in Hqp, Hqr.
  exists w2. split; [done|]. split; [congruence|]. split; [|done].
  rewrite Hpr, Hqp. f_equal.
  eapply submit_all_reports; [|done]. by rewrite Hrun.
Qed.

End Run.

Section RunFacts.

Variable subprocess :
  list string → filesystem → option CompletedProcess * filesystem.

Lemma succeeded_not_failed (future : outcome string * string) :
  succeeded future → ¬ failed future.
Proof. intros [r Hr] [e He]. congruence. Qed.

Lemma all_succeeded_or_one_failed (futures : list (outcome string * string)) :
  Forall succeeded futures ∨ Exists failed futures.
Proof.
  induction futures as [|future futures [IH|IH]].
  - left. constructor.
  - destruct (succeeded_or_failed future).
    + left. by constructor.
    + right. by left.
  - right. by right.
Qed.

(** A failed conversion makes the run return [False]. *)
Lemma process_images_failure (imgs_dir output_dir : Path) (rm : bool) (w : world) :
  Exists failed (conversions subprocess imgs_dir output_dir w) →
  (process_images subprocess imgs_dir output_dir rm w).1 = Return false.
Proof.
  intros Hex.
  destruct (listdir_cases imgs_dir w) as [Hl | (e & Hl & _)].
  - destruct (pool_listed subprocess imgs_dir output_dir w Hl) as (_ & Hsub & Hpool).
    rewrite process_images_run, Hpool.
    destruct (first_failure _ Hex) as (before & fut & rest & Heq & Hbefore & [e He]).
    pose proof (submit_all_exceptions subprocess _ _ _ _ (f_equal fst Hsub)) as Hexc.
    rewrite Heq in Hexc.
    apply Forall_app in Hexc as [_ [Hexc _]%Forall_cons].
    destruct (wait_results_first_failure before rest fut
                (after_conversions subprocess imgs_dir output_dir w) Hbefore)
      as [Hres _]; [by eauto|].
    rewrite <- Heq in Hres.
    destruct (wait_results _ _) as [o w2]. simpl in *. by subst o.
  - destruct (pool_unlisted subprocess imgs_dir output_dir w e Hl) as (_ & Hc & _).
    rewrite Hc in Hex. by apply Exists_nil in Hex.
Qed.

(** The loop over the inputs raises nothing but what [os.remove] raises. *)
Lemma post_pass_exception (files : list Path) (output_dir : Path) (rm : bool)
    (w : world) (e : exn) :
  (post_pass files output_dir rm w).1 = Raise e → is_exception e.
Proof.
  revert w. induction files as [|g rest IH]; intros w; [done|].
  rewrite post_pass_cons. repeat case_match; try apply IH; by intros [= <-].
Qed.

(** No [SystemExit] comes out of [process_images]. *)
Lemma process_images_exception (imgs_dir output_dir : Path) (rm : bool)
    (w : world) (e : exn) :
  (process_images subprocess imgs_dir output_dir rm w).1 = Raise e →
  is_exception e.
Proof.
  destruct (all_succeeded_or_one_failed
              (conversions subprocess imgs_dir output_dir w)) as [Hok|Hex].
  - destruct (listdir_cases imgs_dir w) as [Hl | (e' & Hl & He')].
    + destruct (process_images_success subprocess imgs_dir output_dir rm w Hl Hok)
        as (w2 & _ & _ & _ & ->).
      pose proof (post_pass_exception (batch imgs_dir w) output_dir rm w2) as Hpp.
      destruct (post_pass _ _ _ _) as [[[]|e''] w3]; simpl in *; [done|].
      intros [= <-]. by apply Hpp.
    + destruct (pool_unlisted subprocess imgs_dir output_dir w e' Hl) as (_ & _ & Hpool).
      rewrite process_images_run, Hpool. simpl. by intros [= <-].
  - by rewrite process_images_failure.
Qed.

End RunFacts.

(** X3.  Every input of the batch is converted exactly once, in the order of
    the listing and with quality 75, whatever the flag and whether or not
    conversions fail: the commands of a run are one [magick] command per
    input, and none is run for anything else. *)
Theorem every_input_converted_once
    (subprocess : list string → filesystem → option CompletedProcess * filesystem)
    (imgs_dir output_dir : Path) (rm : bool) (w : world) :
  executed (trace (process_images subprocess imgs_dir output_dir rm w).2)
  = executed (trace w)
    ++ ((λ f, ["magick"; "-quality"; "75"; str f;
               str (output_dir // (stem f +:+ ".webp"))])
        <$> batch imgs_dir w).
Proof.
  change (executed (trace (process_images subprocess imgs_dir output_dir rm w).2)
          = executed (trace w)
            ++ ((λ f, magick_command f output_dir) <$> batch imgs_dir w)).
  destruct (listdir_cases imgs_dir w) as [Hl | (e & Hl & _)].
  - destruct (pool_listed subprocess imgs_dir output_dir w Hl) as (_ & Hsub & Hpool).
    rewrite process_images_run, Hpool.
    pose proof (submit_all_executed subprocess (batch imgs_dir w) output_dir w) as Hx.
    rewrite Hsub in Hx. simpl in Hx.
    pose proof (wait_results_executed (conversions subprocess imgs_dir output_dir w)
                  (after_conversions subprocess imgs_dir output_dir w)) as Hw.
    destruct (wait_results _ _) as [[[|]|e] w2]; simpl in *; [|congruence..].
    pose proof (post_pass_executed (batch imgs_dir w) output_dir rm w2) as Hp.
    destruct (post_pass _ _ _ _) as [[[]|e] w3]; simpl in *; congruence.
  - destruct (pool_unlisted subprocess imgs_dir output_dir w e Hl) as (Hb & _ & Hpool).
    rewrite process_images_run, Hpool, Hb. simpl. by rewrite app_nil_r.
Qed.

(** X4.  [process_images] returns [False] exactly when some conversion failed,
    and it returns [True] only when every conversion succeeded. *)
Theorem result_reflects_conversions
    (subprocess : list string → filesystem → option CompletedProcess * filesystem)
    (imgs_dir output_dir : Path) (rm : bool) (w : world) :
  ((process_images subprocess imgs_dir output_dir rm w).1 = Return false ↔
   Exists failed (conversions subprocess imgs_dir output_dir w))
  ∧ ((process_images subprocess imgs_dir output_dir rm w).1 = Return true →
     Forall succeeded (conversions subprocess imgs_dir output_dir w)).
Proof.
  destruct (all_succeeded_or_one_failed
              (conversions subprocess imgs_dir output_dir w)) as [Hok|Hex].
  - split; [|done]. split.
    + destruct (listdir_cases imgs_dir w) as [Hl | (e & Hl & _)].
      * destruct (process_images_success subprocess imgs_dir output_dir rm w Hl Hok)
          as (w2 & _ & _ & _ & ->).
        by destruct (post_pass _ _ _ _) as [[[]|e] w3].
      * destruct (pool_unlisted subprocess imgs_dir output_dir w e Hl)
          as (_ & _ & Hpool).
        by rewrite process_images_run, Hpool.
    + intros (future & Hin & Hf)%Exists_exists.
      rewrite Forall_forall in Hok. by destruct (succeeded_not_failed future (Hok _ Hin)).
  - rewrite (process_images_failure subprocess imgs_dir output_dir rm w Hex).
    split; [done|]. by intros [=].
Qed.

Lemma result_reflects_conversions_witness :
  (process_images Examples.reject_b ["in"] ["out"] false Examples.boot).1
  = Return false.
Proof.
  apply (proj1 (result_reflects_conversions Examples.reject_b ["in"] ["out"]
                  false Examples.boot)).
  vm_compute. left. by eexists.
Defined.

(** X5.  With a converter that deletes nothing and every conversion succeeding,
    standard output is one [Processed file: <input path>] line per input,
    in the order of the listing, and no other line. *)
Theorem success_output
    (subprocess : list string → filesystem → option CompletedProcess * filesystem)
    (imgs_dir output_dir : Path) (rm : bool) (w : world) :
  preserving subprocess →
  Forall succeeded (conversions subprocess imgs_dir output_dir w) →
  printed (trace (process_images subprocess imgs_dir output_dir rm w).2)
  = printed (trace w)
    ++ ((λ f, "Processed file: " +:+ str f) <$> batch imgs_dir w).
Proof.
  intros Hsub Hok.
  destruct (listdir_cases imgs_dir w) as [Hl | (e & Hl & _)].
  - destruct (process_images_success subprocess imgs_dir output_dir rm w Hl Hok)
      as (w2 & Hfs & _ & Hpr & ->).
    destruct (pool_listed subprocess imgs_dir output_dir w Hl) as (Hb & Hrun & _).
    pose proof (submit_all_artifacts subprocess (batch imgs_dir w) output_dir w _
                  Hsub (f_equal fst Hrun) Hok) as Hart.
    rewrite Hrun in Hart. simpl in Hart.
    pose proof (post_pass_silent (batch imgs_dir w) output_dir rm w2) as Hsilent.
    destruct (post_pass _ _ _ _) as [[[]|e] w3]; simpl in *;
      (rewrite Hsilent; [done | | intros g Hg; rewrite Hfs; by apply Hart]);
      intros g g' Hg _ Heq; rewrite Hb in Hg; rewrite <- Heq in Hg;
      by apply expected_file_not_input in Hg.
  - destruct (pool_unlisted subprocess imgs_dir output_dir w e Hl) as (Hb & _ & Hpool).
    rewrite process_images_run, Hpool, Hb. simpl. by rewrite app_nil_r.
Qed.

Lemma success_output_witness :
  printed (trace (process_images Examples.convert ["in"] ["out"] true
                    Examples.boot).2)
  = ["Processed file: in/b.png"; "Processed file: in/a.png"].
Proof.
  rewrite (success_output Examples.convert ["in"] ["out"] true Examples.boot).
  - vm_compute. reflexivity.
  - apply convert_preserving.
  - vm_compute. repeat (constructor; [by eexists|]). constructor.
Defined.

(** X6.  Called on a path that is not a directory, [process_images] raises the
    error of [os.listdir] and has done nothing: no command, no output, no
    change on disk. *)
Theorem process_images_not_a_directory
    (subprocess : list string → filesystem → option CompletedProcess * filesystem)
    (imgs_dir output_dir : Path) (rm : bool) (w : world) :
  (is_dir imgs_dir w).1 = Return false →
  process_images subprocess imgs_dir output_dir rm w
  = (Raise (if bool_decide (is_Some (fs w !! imgs_dir))
            then NotADirectoryError (str imgs_dir)
            else FileNotFoundError (str imgs_dir)), w).
Proof.
  unfold is_dir, process_images, listdir. simpl. intros [= Hdir].
  rewrite bind_run. destruct (fs w !! imgs_dir) as [n|]; simpl in *.
  - by rewrite Hdir.
  - done.
Qed.

Lemma process_images_not_a_directory_witness :
  process_images Examples.convert ["in"; "a.png"] ["out"] true Examples.boot
  = (Raise (NotADirectoryError "in/a.png"), Examples.boot).
Proof.
  rewrite (process_images_not_a_directory Examples.convert ["in"; "a.png"] ["out"]
             true Examples.boot) by (vm_compute; reflexivity).
  reflexivity.
Defined.

(** X7.  A directory without any [.png] entry is a success that does nothing:
    [process_images] returns [True] and the world is untouched. *)
Theorem empty_batch_is_success
    (subprocess : list string → filesystem → option CompletedProcess * filesystem)
    (imgs_dir output_dir : Path) (rm : bool) (w : world) :
  (is_dir imgs_dir w).1 = Return true →
  batch imgs_dir w = [] →
  process_images subprocess imgs_dir output_dir rm w = (Return true, w).
Proof.
  intros Hdir Hempty. apply listdir_is_dir in Hdir.
  destruct (pool_listed subprocess imgs_dir output_dir w Hdir) as (_ & Hrun & Hpool).
  rewrite process_images_run, Hpool. rewrite Hempty in Hrun |- *.
  simpl in Hrun. injection Hrun as <- <-. reflexivity.
Qed.

Lemma empty_batch_is_success_witness :
  process_images Examples.convert ["out"] ["out"] true Examples.boot
  = (Return true, Examples.boot).
Proof.
  apply (empty_batch_is_success Examples.convert ["out"] ["out"] true Examples.boot);
    vm_compute; reflexivity.
Defined.

(** X8.  What a run can remove: inputs of the batch only, each at most once and
    in their order, none when the flag is off; every other entry, the
    artifacts included, is as the conversions left it. *)
Theorem only_batch_inputs_removed
    (subprocess : list string → filesystem → option CompletedProcess * filesystem)
    (imgs_dir output_dir : Path) (rm : bool) (w : world) :
  ∃ rs,
    removed (trace (process_images subprocess imgs_dir output_dir rm w).2)
    = removed (trace w) ++ rs
    ∧ rs `sublist_of` batch imgs_dir w
    ∧ NoDup rs
    ∧ (rm = false → rs = [])
    ∧ (∀ p, p ∈ rs →
         fs (process_images subprocess imgs_dir output_dir rm w).2 !! p = None)
    ∧ (∀ p, p ∉ rs →
         fs (process_images subprocess imgs_dir output_dir rm w).2 !! p
         = fs (after_conversions subprocess imgs_dir output_dir w) !! p).
Proof.
  assert (∀ w', fs w' = fs (after_conversions subprocess imgs_dir output_dir w) →
                removed (trace w') = removed (trace w) →
                ∃ rs, removed (trace w') = removed (trace w) ++ rs
                      ∧ rs `sublist_of` batch imgs_dir w ∧ NoDup rs
                      ∧ (rm = false → rs = [])
                      ∧ (∀ p, p ∈ rs → fs w' !! p = None)
                      ∧ (∀ p, p ∉ rs →
                           fs w' !! p
                           = fs (after_conversions subprocess imgs_dir output_dir w)
                             !! p)) as Hnone.
  { intros w' Hfs Hrm. exists []. rewrite app_nil_r, Hfs.
    split; [done|]. split; [apply sublist_nil_l|]. split; [constructor|].
    split; [done|]. split; [|done]. intros p Hp. by apply elem_of_nil in Hp. }
  destruct (listdir_cases imgs_dir w) as [Hl | (e & Hl & _)].
  - destruct (pool_listed subprocess imgs_dir output_dir w Hl) as (_ & Hsub & Hpool).
    rewrite process_images_run, Hpool.
    pose proof (submit_all_quiet subprocess (batch imgs_dir w) output_dir w) as [_ Hq].
    rewrite Hsub in Hq. simpl in Hq.
    destruct (wait_results_fs (conversions subprocess imgs_dir output_dir w)
                (after_conversions subprocess imgs_dir output_dir w)) as [Hfs Hrm].
    destruct (wait_results _ _) as [[[|]|e] w2]; simpl in *;
      [|apply Hnone; congruence..].
    destruct (post_pass_frame (batch imgs_dir w) output_dir rm w2)
      as (rs & Hrs & Hsubl & Hoff & Hgone & Hkept).
    assert (∃ rs, removed (trace (post_pass (batch imgs_dir w) output_dir rm w2).2)
                  = removed (trace w) ++ rs
                  ∧ rs `sublist_of` batch imgs_dir w ∧ NoDup rs
                  ∧ (rm = false → rs = [])
                  ∧ (∀ p, p ∈ rs →
                       fs (post_pass (batch imgs_dir w) output_dir rm w2).2 !! p
                       = None)
                  ∧ (∀ p, p ∉ rs →
                       fs (post_pass (batch imgs_dir w) output_dir rm w2).2 !! p
                       = fs (after_conversions subprocess imgs_dir output_dir w)
                         !! p)) as Hpp.
    { exists rs. split; [congruence|]. split; [done|].
      split; [by eapply sublist_NoDup; [apply NoDup_batch|]|]. split; [done|].
      split; [done|]. intros p Hp. rewrite Hkept by done. by rewrite Hfs. }
    by destruct (post_pass _ _ _ _) as [[[]|e] w3].
  - destruct (pool_unlisted subprocess imgs_dir output_dir w e Hl) as (_ & _ & Hpool).
    rewrite process_images_run, Hpool. simpl. apply Hnone; [|done].
    unfold after_conversions. by rewrite Hpool.
Qed.

(** X9.  No artifact path is ever an input: whatever the directories, also when
    the output directory is the input directory, a run does not take the
    artifacts of an earlier run as inputs. *)
Theorem artifacts_are_not_inputs
    (imgs_dir output_dir file : Path) (w : world) :
  expected_file output_dir file ∉ batch imgs_dir w.
Proof.
  unfold batch. destruct (listdir_cases imgs_dir w) as [-> | (e & -> & _)].
  - apply expected_file_not_input.
  - apply not_elem_of_nil.
Qed.

(** X10.  Two inputs [b1.png] and [b2.png] have the same artifact exactly when
    they have the same name, or when one is named [.png] and the other
    [.png.png]: both of those are written to [.png.webp]. *)
Theorem artifact_collision (output_dir d1 d2 : Path) (b1 b2 : string) :
  expected_file output_dir (d1 // (b1 +:+ ".png"))
  = expected_file output_dir (d2 // (b2 +:+ ".png"))
  ↔ b1 = b2 ∨ (b1 = "" ∧ b2 = ".png") ∨ (b1 = ".png" ∧ b2 = "").
Proof.
  unfold expected_file. rewrite !stem_png, !compressed_name. split.
  - intros [_ Heq]%joinpath_inj.
    apply append_inj_r in Heq as [Heq _]; [|done].
    apply append_inj_r in Heq as [Heq _]; [|done].
    repeat case_decide; subst; auto.
  - intros [-> | [[-> ->] | [-> ->]]]; [done | |]; by repeat case_decide.
Qed.

(** * Further properties of [main] *)

(** X11.  With two directories on the command line, the exit status is 0 exactly
    when [process_images] returned [True] and 1 in every other case, an
    exception escaping from it included; [main] adds one closing line to
    the output unless an exception escaped, and changes nothing on disk
    itself. *)
Theorem exit_status_of_run
    (subprocess : list string → filesystem → option CompletedProcess * filesystem)
    (a : args) (w : world) :
  (is_dir (input a) w).1 = Return true →
  (is_dir (output a) w).1 = Return true →
  (exit_status (main subprocess a w).1 = 0 ↔
   (process_images subprocess (input a) (output a) (remove_input a) w).1
   = Return true)
  ∧ (exit_status (main subprocess a w).1 ≠ 0 →
     exit_status (main subprocess a w).1 = 1)
  ∧ fs (main subprocess a w).2
    = fs (process_images subprocess (input a) (output a) (remove_input a) w).2
  ∧ printed (trace (main subprocess a w).2)
    = printed (trace (process_images subprocess (input a) (output a)
                        (remove_input a) w).2)
      ++ match (process_images subprocess (input a) (output a)
                  (remove_input a) w).1 with
         | Return true => ["Operation completed successfully."]
         | Return false => ["Operation failed. See above for errors."]
         | Raise _ => []
         end.
Proof.
  intros Hin Hout.
  pose proof (process_images_exception subprocess (input a) (output a)
                (remove_input a) w) as Hexc.
  revert Hin Hout. unfold main, is_dir. simpl. intros [= Hin] [= Hout].
  rewrite bind_run. cbv beta. rewrite Hin. cbn [negb].
  rewrite bind_run. cbv beta. rewrite Hout. cbn [negb].
  rewrite bind_run.
  destruct (process_images _ _ _ _ _) as [[[|]|e] w1]; simpl in *.
  - rewrite printed_snoc. done.
  - rewrite printed_snoc. repeat split; done.
  - specialize (Hexc e eq_refl). rewrite app_nil_r.
    destruct e; try done; repeat split; try done; try by intros [=].
Qed.

Lemma exit_status_of_run_witness :
  exit_status (main Examples.convert (Args ["in"] ["out"] false)
                 Examples.boot).1 = 0.
Proof.
  apply (proj1 (exit_status_of_run Examples.convert (Args ["in"] ["out"] false)
                  Examples.boot eq_refl eq_refl)).
  vm_compute. reflexivity.
Defined.

(** X12.  An invalid directory ends [main] before anything is done: no command is
    run and the disk is untouched; the input is checked first, so one line
    is printed, about the input when it is not a directory and about the
    output otherwise; [main] returns normally, which is exit status 0. *)
Theorem main_rejects_non_directory
    (subprocess : list string → filesystem → option CompletedProcess * filesystem)
    (a : args) (w : world) :
  ((is_dir (input a) w).1 = Return false →
   main subprocess a w
   = (Return tt,
      World (fs w)
        (trace w ++ [EvPrint ("Error: '" +:+ str (input a)
                              +:+ "' is not a directory.")])))
  ∧ ((is_dir (input a) w).1 = Return true →
     (is_dir (output a) w).1 = Return false →
     main subprocess a w
     = (Return tt,
        World (fs w)
          (trace w ++ [EvPrint ("Error: '" +:+ str (output a)
                                +:+ "' is not a directory.")]))).
Proof.
  split.
  - apply main_input_not_a_directory.
  - apply main_output_not_a_directory.
Qed.

Lemma main_rejects_non_directory_witness :
  main Examples.convert (Args ["in"] ["in"; "a.png"] true) Examples.boot
  = (Return tt,
     World Examples.disk [EvPrint "Error: 'in/a.png' is not a directory."]).
Proof.
  rewrite (proj2 (main_rejects_non_directory Examples.convert
                    (Args ["in"] ["in"; "a.png"] true) Examples.boot)
             eq_refl eq_refl).
  reflexivity.
Defined.

(** * Time stamps and selective removal *)

Section Stamps.

Variable subprocess :
  list string → filesystem → option CompletedProcess * filesystem.

Variable output_dir : Path.

Local Abbreviation writes_artifact_only :=
  (writes_artifact_only subprocess output_dir).

Lemma run_magick_frame (file : Path) (w : world) (p : Path) :
  writes_artifact_only file →
  p ≠ expected_file output_dir file →
  fs (run_magick subprocess file output_dir w).2 !! p = fs w !! p.
Proof.
  intros Hsub Hp. rewrite run_magick_cases. cbv zeta.
  specialize (Hsub (fs w) p Hp).
  destruct (subprocess _ _) as [[result|] m1]; simpl in *; [|done].
  repeat first [ case_bool_decide | case_match ]; simpl; try done.
  by rewrite lookup_insert_ne.
Qed.

Lemma run_magick_stamps (file : Path) (w : world) (r : string) (n : node) :
  writes_artifact_only file →
  file ≠ expected_file output_dir file →
  (run_magick subprocess file output_dir w).1 = Return r →
  fs w !! file = Some n →
  ∃ n', fs (run_magick subprocess file output_dir w).2
          !! expected_file output_dir file = Some n'
        ∧ st_atime n' = st_atime n ∧ st_mtime n' = st_mtime n.
Proof.
  intros Hsub Hne. rewrite run_magick_cases. cbv zeta.
  specialize (Hsub (fs w) file Hne).
  destruct (subprocess _ _) as [[result|] m1]; simpl in *; [|done].
  case_bool_decide; [done|].
  destruct (m1 !! file) as [n0|] eqn:Hn0; [|done].
  destruct (m1 !! output_webp_file file output_dir) as [n_out|]; [|done].
  simpl. intros _ Hn. assert (n0 = n) as -> by congruence.
  eexists. split; [apply lookup_insert_eq|]. done.
Qed.

Lemma submit_all_frame (files : list Path) (w : world) (p : Path) :
  (∀ g, g ∈ files → writes_artifact_only g) →
  (∀ g, g ∈ files → p ≠ expected_file output_dir g) →
  fs (submit_all subprocess files output_dir w).2 !! p = fs w !! p.
Proof.
  revert w. induction files as [|g rest IH]; intros w Hsub Hp; [done|].
  rewrite submit_all_cons.
  specialize (IH (run_magick subprocess g output_dir w).2).
  destruct (submit_all _ _ _ _) as [[futures'|e] w2]; simpl in *;
    (rewrite IH; [apply run_magick_frame; [apply Hsub | apply Hp]; left | |]);
    intros g' Hg'; try apply Hsub; try apply Hp; by right.
Qed.

Lemma submit_all_stamps (files : list Path) (w : world)
    (futures : list (outcome string * string)) :
  (∀ g, g ∈ files → writes_artifact_only g) →
  (∀ g g', g ∈ files → g' ∈ files → expected_file output_dir g' ≠ g) →
  NoDup (expected_file output_dir <$> files) →
  (submit_all subprocess files output_dir w).1 = Return futures →
  Forall succeeded futures →
  ∀ f n, f ∈ files → fs w !! f = Some n →
    ∃ n', fs (submit_all subprocess files output_dir w).2
            !! expected_file output_dir f = Some n'
          ∧ st_atime n' = st_atime n ∧ st_mtime n' = st_mtime n.
Proof.
  revert w futures.
  induction files as [|g rest IH]; intros w futures Hsub Hexp Hnd Hf Hok f n Hin Hn.
  - by apply elem_of_nil in Hin.
  - rewrite fmap_cons in Hnd. apply NoDup_cons in Hnd as [Hfresh Hnd].
    rewrite submit_all_cons in Hf.
    pose proof (submit_all_frame rest (run_magick subprocess g output_dir w).2) as Hfr.
    specialize (IH (run_magick subprocess g output_dir w).2).
    rewrite submit_all_cons.
    destruct (submit_all _ _ _ _) as [[futures'|e] w2]; simpl in *; [|done].
    injection Hf as <-. apply Forall_cons in Hok as [[r Hr] Hok]. simpl in Hr.
    assert (∀ a, a ∈ rest → writes_artifact_only a) as Hsub'
      by (intros a Ha; apply Hsub; by right).
    apply elem_of_cons in Hin as [->|Hin].
    + destruct (run_magick_stamps g w r n) as (n' & Hn' & Hst); try done.
      { apply Hsub. left. }
      { intros Heq. apply (Hexp g g); [left | left | done]. }
      exists n'. split; [|done]. rewrite Hfr; [done | done |].
      intros g' Hg' Heq. apply Hfresh. rewrite Heq.
      by apply list_elem_of_fmap_2.
    + eapply IH; try done.
      * intros a b Ha Hb. apply Hexp; by right.
      * rewrite run_magick_frame; [done | apply Hsub; left |].
        intros Heq. apply (Hexp f g); [by right | left | done].
Qed.

(** With the flag set, distinct inputs that are regular files and no
    artifact yet missing its input, the loop over the inputs removes an
    input exactly when its artifact is present. *)
Lemma post_pass_selective (files : list Path) (w : world) :
  NoDup files →
  (∀ g g', g ∈ files → g' ∈ files → expected_file output_dir g' ≠ g) →
  (∀ g, g ∈ files → is_Some (fs w !! expected_file output_dir g) →
        is_regular (fs w) g) →
  (post_pass files output_dir true w).1 = Return tt
  ∧ ∀ p, fs (post_pass files output_dir true w).2 !! p
         = if decide (p ∈ files ∧ is_Some (fs w !! expected_file output_dir p))
           then None else fs w !! p.
Proof.
  intros Hnd. revert w.
  induction Hnd as [|g rest Hg Hnd IH]; intros w Hexp Hreg.
  - split; [done|]. intros p. case_decide as Hp; [|done].
    destruct Hp as [Hp _]. by apply elem_of_nil in Hp.
  - assert (∀ a b, a ∈ rest → b ∈ rest → expected_file output_dir b ≠ a) as Hexp'
      by (intros a b Ha Hb; apply Hexp; by right).
    rewrite post_pass_cons.
    destruct (fs w !! expected_file output_dir g) as [n_out|] eqn:Hout.
    + destruct (Hreg g) as (n & Hn & Hk); [left | by rewrite Hout |].
      rewrite Hn, Hk.
      destruct (IH (World (delete g (fs w)) (trace w ++ [EvRemove g])) Hexp')
        as [Hr Hfs].
      { simpl. intros g' Hin [no Hno].
        assert (g' ≠ g) as Hne by (intros ->; done).
        rewrite lookup_delete_ne in Hno
          by (intros Heq; apply (Hexp g g'); [left | by right | done]).
        destruct (Hreg g') as (n' & Hn' & Hk'); [by right | eauto |].
        exists n'. by rewrite lookup_delete_ne. }
      split; [done|]. intros p. rewrite Hfs. simpl.
      destruct (decide (p = g)) as [->|Hpg].
      * rewrite lookup_delete_eq, Hout.
        rewrite (decide_True (P := g ∈ g :: rest ∧ is_Some (Some n_out)))
          by (split; [left | eauto]).
        by case_decide.
      * rewrite (lookup_delete_ne (fs w) g p) by congruence.
        destruct (decide (p ∈ rest)) as [Hin|Hnin].
        -- rewrite lookup_delete_ne
             by (intros Heq; apply (Hexp g p); [left | by right | done]).
           destruct (decide (is_Some (fs w !! expected_file output_dir p)))
             as [Hs|Hs].
           ++ rewrite !decide_True; [done | split; [by right | done] | done].
           ++ rewrite !decide_False; [done | by intros [_ ?] | by intros [_ ?]].
        -- rewrite !decide_False; [done | | by intros [? _]].
           intros [Hc _]. by apply elem_of_cons in Hc as [?|?].
    + destruct (IH (World (fs w) (trace w ++
          [EvPrint (keeping_original (expected_file output_dir g))])) Hexp')
        as [Hr Hfs].
      { simpl. intros g' Hin. apply Hreg. by right. }
      split; [done|]. intros p. rewrite Hfs. simpl.
      destruct (decide (p = g)) as [->|Hpg].
      * rewrite Hout. rewrite !decide_False; [done | by intros [_ [? ?]] | by intros [? _]].
      * destruct (decide (p ∈ rest ∧ is_Some (fs w !! expected_file output_dir p)))
          as [[Hin Hs]|Hno].
        -- rewrite decide_True; [done | split; [by right | done]].
        -- rewrite decide_False; [done|]. intros [Hc Hs]. apply Hno.
           by apply elem_of_cons in Hc as [?|?].
Qed.

End Stamps.

(** X13.  When the converter changes nothing but the artifact it is asked for,
    no two inputs share an artifact and every conversion succeeded, the
    artifact of each input ends the run with the last-access and
    last-modified stamps the input had when the run began, whatever the
    flag; without the flag the input itself is untouched and the run
    returns [True]. *)
Theorem timestamps_copied
    (subprocess : list string → filesystem → option CompletedProcess * filesystem)
    (imgs_dir output_dir : Path) (rm : bool) (w : world) (f : Path) (n : node) :
  (∀ g, g ∈ batch imgs_dir w → writes_artifact_only subprocess output_dir g) →
  NoDup (expected_file output_dir <$> batch imgs_dir w) →
  Forall succeeded (conversions subprocess imgs_dir output_dir w) →
  f ∈ batch imgs_dir w →
  fs w !! f = Some n →
  (∃ n', fs (process_images subprocess imgs_dir output_dir rm w).2
           !! expected_file output_dir f = Some n'
         ∧ st_atime n' = st_atime n ∧ st_mtime n' = st_mtime n)
  ∧ (rm = false →
     (process_images subprocess imgs_dir output_dir rm w).1 = Return true
     ∧ fs (process_images subprocess imgs_dir output_dir rm w).2 !! f = Some n).
Proof.
  intros Hsub Hnd Hok Hf Hn.
  destruct (listdir_cases imgs_dir w) as [Hl | (e & Hl & _)].
  - destruct (pool_listed subprocess imgs_dir output_dir w Hl) as (Hb & Hrun & _).
    assert (∀ g g', g ∈ batch imgs_dir w → g' ∈ batch imgs_dir w →
                    expected_file output_dir g' ≠ g) as Hexp.
    { intros g g' Hg _ Heq. rewrite Hb in Hg. rewrite <- Heq in Hg.
      by apply expected_file_not_input in Hg. }
    destruct (submit_all_stamps subprocess output_dir (batch imgs_dir w) w _
                Hsub Hexp Hnd (f_equal fst Hrun) Hok f n Hf Hn)
      as (n' & Hn' & Hst).
    pose proof (submit_all_frame subprocess output_dir (batch imgs_dir w) w f Hsub)
      as Hkeep.
    rewrite Hrun in Hn', Hkeep. simpl in Hn', Hkeep.
    destruct (process_images_success subprocess imgs_dir output_dir rm w Hl Hok)
      as (w2 & Hfs & _ & _ & Hpi).
    split.
    + exists n'. split; [|done].
      destruct (post_pass_frame (batch imgs_dir w) output_dir rm w2)
        as (rs & _ & Hsubl & _ & _ & Hkept).
      assert (fs (post_pass (batch imgs_dir w) output_dir rm w2).2
                !! expected_file output_dir f = Some n') as Hpp.
      { rewrite Hkept, Hfs; [done|]. intros Hin.
        apply (Hexp (expected_file output_dir f) f); [|done..].
        by eapply elem_of_sublist. }
      rewrite Hpi. by destruct (post_pass _ _ _ _) as [[[]|e] w3].
    + intros ->. rewrite Hpi.
      destruct (post_pass_keep (batch imgs_dir w) output_dir w2) as (Hr & Hfs' & _).
      destruct (post_pass _ _ _ _) as [[[]|e] w3]; simpl in *; [|done].
      split; [done|]. rewrite Hfs', Hfs. rewrite Hkeep; [done|].
      intros g Hg Heq. by apply (Hexp f g).
  - destruct (pool_unlisted subprocess imgs_dir output_dir w e Hl) as (Hb & _).
    rewrite Hb in Hf. by apply elem_of_nil in Hf.
Qed.

Lemma convert_writes_artifact_only (a b c src dst : string) (m : filesystem)
    (p : Path) :
  p ≠ Examples.split_slash dst →
  (Examples.convert [a; b; c; src; dst] m).2 !! p = m !! p.
Proof.
  intros Hp. unfold Examples.convert. repeat case_match; simpl; try done.
  by rewrite lookup_insert_ne.
Qed.

Lemma timestamps_copied_witness :
  (∃ n', fs (process_images Examples.convert ["in"] ["out"] false Examples.boot).2
           !! expected_file ["out"] ["in"; "a.png"] = Some n'
         ∧ st_atime n' = 10 ∧ st_mtime n' = 20)
  ∧ fs (process_images Examples.convert ["in"] ["out"] false Examples.boot).2
      !! ["in"; "a.png"] = Some (Node false 10 20).
Proof.
  destruct (timestamps_copied Examples.convert ["in"] ["out"] false Examples.boot
              ["in"; "a.png"] (Node false 10 20)) as [Hart Hin].
  - intros g Hg m p Hp.
    assert (batch ["in"] Examples.boot = [["in"; "b.png"]; ["in"; "a.png"]])
      as Hb by (vm_compute; reflexivity).
    rewrite Hb in Hg. apply elem_of_cons in Hg as [->|Hg].
    { by apply (convert_writes_artifact_only _ _ _ "in/b.png" "out/b.webp"). }
    apply list_elem_of_singleton in Hg as ->.
    by apply (convert_writes_artifact_only _ _ _ "in/a.png" "out/a.webp").
  - apply (bool_decide_unpack _). vm_compute. exact I.
  - vm_compute. repeat (constructor; [by eexists|]). constructor.
  - apply (bool_decide_unpack _). vm_compute. exact I.
  - vm_compute. reflexivity.
  - split; [exact Hart | by apply Hin].
Defined.

(** X14.  With the flag set and every conversion succeeding, the run removes an
    input exactly when its artifact is on disk after the conversions: such
    an input is gone, any other entry is as the conversions left it, and
    the run returns [True].  The inputs to remove have to be regular
    files, or [os.remove] raises. *)
Theorem removal_follows_artifacts
    (subprocess : list string → filesystem → option CompletedProcess * filesystem)
    (imgs_dir output_dir : Path) (w : world) :
  (is_dir imgs_dir w).1 = Return true →
  Forall succeeded (conversions subprocess imgs_dir output_dir w) →
  (∀ g, g ∈ batch imgs_dir w →
        is_Some (fs (after_conversions subprocess imgs_dir output_dir w)
                 !! expected_file output_dir g) →
        is_regular (fs (after_conversions subprocess imgs_dir output_dir w)) g) →
  (process_images subprocess imgs_dir output_dir true w).1 = Return true
  ∧ ∀ p, fs (process_images subprocess imgs_dir output_dir true w).2 !! p
         = if decide (p ∈ batch imgs_dir w
                      ∧ is_Some (fs (after_conversions subprocess imgs_dir
                                       output_dir w)
                                 !! expected_file output_dir p))
           then None
           else fs (after_conversions subprocess imgs_dir output_dir w) !! p.
Proof.
  intros Hdir Hok Hreg. apply listdir_is_dir in Hdir.
  destruct (pool_listed subprocess imgs_dir output_dir w Hdir) as (Hb & _ & _).
  destruct (process_images_success subprocess imgs_dir output_dir true w Hdir Hok)
    as (w2 & Hfs & _ & _ & ->).
  rewrite <- Hfs in *.
  destruct (post_pass_selective output_dir (batch imgs_dir w) w2) as [Hr Hsel].
  - apply NoDup_batch.
  - intros g g' Hg _ Heq. rewrite Hb in Hg. rewrite <- Heq in Hg.
    by apply expected_file_not_input in Hg.
  - done.
  - by destruct (post_pass _ _ _ _) as [[[]|e] w3].
Qed.

Lemma removal_follows_artifacts_witness :
  fs (process_images Examples.clobber ["in"] ["out"] true Examples.boot).2
    !! ["in"; "a.png"] = None
  ∧ fs (process_images Examples.clobber ["in"] ["out"] true Examples.boot).2
      !! ["in"; "b.png"] = Some (Node false 30 40).
Proof.
  destruct (removal_follows_artifacts Examples.clobber ["in"] ["out"]
              Examples.boot) as [_ Hsel].
  - vm_compute. reflexivity.
  - vm_compute. repeat (constructor; [by eexists|]). constructor.
  - intros g Hg _.
    assert (batch ["in"] Examples.boot = [["in"; "b.png"]; ["in"; "a.png"]])
      as Hb by (vm_compute; reflexivity).
    rewrite Hb in Hg. apply elem_of_cons in Hg as [->|Hg].
    { exists (Node false 30 40). split; vm_compute; reflexivity. }
    apply list_elem_of_singleton in Hg as ->.
    exists (Node false 10 20). split; vm_compute; reflexivity.
  - split; rewrite Hsel; vm_compute; reflexivity.
Defined.

Lemma only_batch_inputs_removed_witness :
  ∃ rs, removed (trace (process_images Examples.convert ["in"] ["out"] true
                          Examples.boot).2) = [] ++ rs
        ∧ rs `sublist_of` batch ["in"] Examples.boot
        ∧ ∀ p, p ∈ rs →
               fs (process_images Examples.convert ["in"] ["out"] true
                     Examples.boot).2 !! p = None.
Proof.
  destruct (only_batch_inputs_removed Examples.convert ["in"] ["out"] true
              Examples.boot) as (rs & Hrm & Hsub & _ & _ & Hgone & _).
  exists rs. split; [exact Hrm|]. split; [exact Hsub | exact Hgone].
Defined.

Lemma artifacts_are_not_inputs_witness :
  expected_file ["out"] ["in"; "a.png"] ∉ batch ["out"] Examples.boot.
Proof.
  exact (artifacts_are_not_inputs ["out"] ["out"] ["in"; "a.png"] Examples.boot).
Defined.

Lemma artifact_collision_witness :
  expected_file ["out"] (["in"] // ("" +:+ ".png"))
  = expected_file ["out"] (["in"] // (".png" +:+ ".png")).
Proof.
  apply (proj2 (artifact_collision ["out"] ["in"] ["in"] "" ".png")).
  right. left. split; reflexivity.
Defined.

(** * The artifact path and the listing, in the run *)

(** Without the flag the loop over the inputs prints one warning per input
    whose artifact is missing, in order, and nothing else. *)
Lemma post_pass_warnings (files : list Path) (output_dir : Path) (w : world) :
  printed (trace (post_pass files output_dir false w).2)
  = printed (trace w)
    ++ ((λ f, keeping_original (expected_file output_dir f))
        <$> filter (λ f, ¬ is_Some (fs w !! expected_file output_dir f)) files).
Proof.
  revert w. induction files as [|g rest IH]; intros w.
  - simpl. by rewrite app_nil_r.
  - rewrite post_pass_cons.
    destruct (fs w !! expected_file output_dir g) as [n_out|] eqn:Hout.
    + rewrite IH, filter_cons_False; [done|]. rewrite Hout. intros Hno.
      apply Hno. by eexists.
    + rewrite IH. simpl. rewrite printed_snoc, <- app_assoc.
      rewrite (filter_cons_True _ g); [done|]. rewrite Hout. by intros [? ?].
Qed.

(** C8.  The artifact of an input is [output_dir / (stem + ".webp")], a
    function of the input path and the output directory alone, and it is
    the one path both halves of the run use.  [run_magick] gives it to the
    converter as destination and, after a zero exit, applies [os.utime] to
    it; the loop over the inputs tests the existence of this very path,
    warns about it when it is missing and goes on to [os.remove] when it
    is there; and a whole run executes one command per input with this
    destination and, without the flag, warns about exactly the inputs for
    which this path is missing after the conversions.  For an input
    [base.png] the artifact is [output_dir / base.webp]. *)
Theorem artifact_path_derivation
    (subprocess : list string → filesystem → option CompletedProcess * filesystem)
    (imgs_dir output_dir file : Path) (rest : list Path) (rm : bool) (w : world) :
  (∃ evs,
     trace (run_magick subprocess file output_dir w).2
     = trace w
       ++ EvExec ["magick"; "-quality"; "75"; str file;
                  str (output_dir ++ [stem file +:+ ".webp"])] :: evs
     ∧ (∀ r, (run_magick subprocess file output_dir w).1 = Return r →
          is_Some (fs (run_magick subprocess file output_dir w).2
                   !! (output_dir ++ [stem file +:+ ".webp"]))
          ∧ ∃ atime mtime,
              evs = [EvUtime (output_dir ++ [stem file +:+ ".webp"]) atime mtime])
     ∧ (∀ e, (run_magick subprocess file output_dir w).1 = Raise e → evs = []))
  ∧ (fs w !! (output_dir ++ [stem file +:+ ".webp"]) = None →
     post_pass (file :: rest) output_dir rm w
     = post_pass rest output_dir rm
         (World (fs w)
            (trace w ++
             [EvPrint ("Error: Expected file '"
                       +:+ str (output_dir ++ [stem file +:+ ".webp"])
                       +:+ "' not found. Keeping original file.")])))
  ∧ (is_Some (fs w !! (output_dir ++ [stem file +:+ ".webp"])) →
     post_pass (file :: rest) output_dir rm w
     = if rm then (os_remove file ≫= λ _, post_pass rest output_dir rm) w
       else post_pass rest output_dir rm w)
  ∧ executed (trace (process_images subprocess imgs_dir output_dir rm w).2)
    = executed (trace w)
      ++ ((λ f, ["magick"; "-quality"; "75"; str f;
                 str (output_dir ++ [stem f +:+ ".webp"])])
          <$> batch imgs_dir w)
  ∧ (Forall succeeded (conversions subprocess imgs_dir output_dir w) →
     printed (trace (process_images subprocess imgs_dir output_dir false w).2)
     = printed (trace w)
       ++ ((λ f, "Processed file: " +:+ str f) <$> batch imgs_dir w)
       ++ ((λ f, "Error: Expected file '"
                 +:+ str (output_dir ++ [stem f +:+ ".webp"])
                 +:+ "' not found. Keeping original file.")
           <$> filter (λ f, ¬ is_Some
                               (fs (after_conversions subprocess imgs_dir
                                      output_dir w)
                                !! (output_dir ++ [stem f +:+ ".webp"])))
                 (batch imgs_dir w)))
  ∧ (∀ d base, base ≠ "" → file = d // (base +:+ ".png") →
       output_dir ++ [stem file +:+ ".webp"] = output_dir // (base +:+ ".webp")).
Proof.
  change (output_dir ++ [stem file +:+ ".webp"])
    with (expected_file output_dir file).
  split; [|split; [|split; [|split; [|split]]]].
  - rewrite run_magick_cases. cbv zeta.
    destruct (subprocess _ _) as [[result|] m1]; simpl;
      [|by exists []].
    case_bool_decide; [by exists []|].
    destruct (m1 !! file) as [n|]; [|by exists []].
    destruct (m1 !! output_webp_file file output_dir) as [n_out|] eqn:Hout;
      [|by exists []].
    exists [EvUtime (expected_file output_dir file) (st_atime n) (st_mtime n)].
    simpl. rewrite <- app_assoc. split; [done|]. split; [|done].
    intros r _. split; [by rewrite lookup_insert_eq | eauto].
  - intros Hmissing. rewrite post_pass_cons. by rewrite Hmissing.
  - intros [n_out Hout]. rewrite post_pass_cons, Hout. destruct rm; [|done].
    rewrite bind_run. unfold os_remove.
    destruct (fs w !! file) as [n|]; [|done]. by destruct (is_directory n).
  - change (executed (trace (process_images subprocess imgs_dir output_dir rm w).2)
            = executed (trace w)
              ++ ((λ f, magick_command f output_dir) <$> batch imgs_dir w)).
    destruct (listdir_cases imgs_dir w) as [Hl | (e & Hl & _)].
    + destruct (pool_listed subprocess imgs_dir output_dir w Hl)
        as (_ & Hsub & Hpool).
      rewrite process_images_run, Hpool.
      pose proof (submit_all_executed subprocess (batch imgs_dir w) output_dir w)
        as Hx.
      rewrite Hsub in Hx. simpl in Hx.
      pose proof (wait_results_executed
                    (conversions subprocess imgs_dir output_dir w)
                    (after_conversions subprocess imgs_dir output_dir w)) as Hw.
      destruct (wait_results _ _) as [[[|]|e] w2]; simpl in *; [|congruence..].
      pose proof (post_pass_executed (batch imgs_dir w) output_dir rm w2) as Hp.
      destruct (post_pass _ _ _ _) as [[[]|e] w3]; simpl in *; congruence.
    + destruct (pool_unlisted subprocess imgs_dir output_dir w e Hl)
        as (Hb & _ & Hpool).
      rewrite process_images_run, Hpool, Hb. simpl. by rewrite app_nil_r.
  - intros Hok.
    change (printed (trace (process_images subprocess imgs_dir output_dir false w).2)
            = printed (trace w)
              ++ ((λ f, "Processed file: " +:+ str f) <$> batch imgs_dir w)
              ++ ((λ f, keeping_original (expected_file output_dir f))
                  <$> filter (λ f, ¬ is_Some
                                (fs (after_conversions subprocess imgs_dir
                                       output_dir w)
                                 !! expected_file output_dir f))
                        (batch imgs_dir w))).
    destruct (listdir_cases imgs_dir w) as [Hl | (e & Hl & _)].
    + destruct (process_images_success subprocess imgs_dir output_dir false w Hl Hok)
        as (w2 & Hfs & _ & Hpr & ->).
      pose proof (post_pass_warnings (batch imgs_dir w) output_dir w2) as Hw.
      rewrite Hfs, Hpr, <- app_assoc in Hw.
      by destruct (post_pass _ _ _ _) as [[[]|e] w3].
    + destruct (pool_unlisted subprocess imgs_dir output_dir w e Hl)
        as (Hb & _ & Hpool).
      rewrite process_images_run, Hpool, Hb. simpl. by rewrite app_nil_r.
  - intros d base Hbase ->. unfold expected_file. rewrite stem_png.
    by rewrite decide_False.
Qed.

Lemma artifact_path_derivation_witness :
  post_pass [["in"; "a.png"]] ["out"] true Examples.boot
  = (Return tt,
     World Examples.disk
       [EvPrint "Error: Expected file 'out/a.webp' not found. Keeping original file."])
  ∧ printed (trace (process_images Examples.clobber ["in"] ["out"] false
                      Examples.boot).2)
    = ["Processed file: in/b.png"; "Processed file: in/a.png";
       "Error: Expected file 'out/b.webp' not found. Keeping original file."]
  ∧ ["out"] ++ [stem (["in"] // ("a" +:+ ".png")) +:+ ".webp"]
    = ["out"] // ("a" +:+ ".webp").
Proof.
  split; [|split].
  - rewrite (proj1 (proj2 (artifact_path_derivation Examples.convert ["in"] ["out"]
                             ["in"; "a.png"] [] true Examples.boot)));
      [reflexivity | vm_compute; reflexivity].
  - rewrite (proj1 (proj2 (proj2 (proj2 (proj2
               (artifact_path_derivation Examples.clobber ["in"] ["out"]
                  ["in"; "a.png"] [] false Examples.boot)))))).
    + vm_compute. reflexivity.
    + vm_compute. repeat (constructor; [by eexists|]). constructor.
  - refine (proj2 (proj2 (proj2 (proj2 (proj2
              (artifact_path_derivation Examples.convert ["in"] ["out"]
                 (["in"] // ("a" +:+ ".png")) [] true Examples.boot)))))
              ["in"] "a" _ eq_refl).
    discriminate.
Defined.

(** C9.  On a directory, the list [process_images] builds and then works on
    is made of the entries of that directory whose name ends in [.png],
    each once, as paths directly below the directory; an entry of a
    subdirectory is never part of it.  The rest of [process_images] runs on
    this list: one conversion is executed for each of its elements and for
    nothing else. *)
Theorem listing_is_flat
    (subprocess : list string → filesystem → option CompletedProcess * filesystem)
    (imgs_dir output_dir : Path) (rm : bool) (w : world) :
  (is_dir imgs_dir w).1 = Return true →
  ∃ png_files,
    (∀ p, p ∈ png_files ↔
          ∃ f, p = imgs_dir // f ∧ is_Some (fs w !! p)
               ∧ PyStr.endswith f ".png" = true)
    ∧ NoDup png_files
    ∧ (∀ sub g, imgs_dir // sub // g ∉ png_files)
    ∧ process_images subprocess imgs_dir output_dir rm w
      = (futures ← submit_all subprocess png_files output_dir;
         completed ← wait_results futures;
         if completed : bool then
           post_pass png_files output_dir rm;; mret true
         else mret false) w
    ∧ executed (trace (process_images subprocess imgs_dir output_dir rm w).2)
      = executed (trace w)
        ++ ((λ f, ["magick"; "-quality"; "75"; str f;
                   str (output_dir ++ [stem f +:+ ".webp"])])
            <$> png_files).
Proof.
  intros Hdir. apply listdir_is_dir in Hdir.
  exists (png_paths imgs_dir (entries (fs w) imgs_dir)).
  assert (∀ p, p ∈ png_paths imgs_dir (entries (fs w) imgs_dir) ↔
               ∃ f, p = imgs_dir // f ∧ is_Some (fs w !! p)
                    ∧ PyStr.endswith f ".png" = true) as Hiff.
  { intros p. rewrite elem_of_png_paths. split.
    - intros (f & -> & Hf & Hin). exists f. by rewrite <- elem_of_entries.
    - intros (f & -> & Hin & Hf). exists f. by rewrite elem_of_entries. }
  split; [done|]. split; [apply NoDup_png_paths, NoDup_entries|]. split.
  { intros sub g [f (Heq & _)]%Hiff. unfold joinpath in Heq.
    apply (f_equal length) in Heq. rewrite !length_app in Heq. simpl in Heq. lia. }
  split.
  { unfold process_images. by rewrite bind_run, Hdir. }
  change (executed (trace (process_images subprocess imgs_dir output_dir rm w).2)
          = executed (trace w)
            ++ ((λ f, magick_command f output_dir)
                <$> png_paths imgs_dir (entries (fs w) imgs_dir))).
  destruct (pool_listed subprocess imgs_dir output_dir w Hdir) as (Hb & Hsub & Hpool).
  rewrite process_images_run, Hpool, <- Hb.
  pose proof (submit_all_executed subprocess (batch imgs_dir w) output_dir w) as Hx.
  rewrite Hsub in Hx. simpl in Hx.
  pose proof (wait_results_executed (conversions subprocess imgs_dir output_dir w)
                (after_conversions subprocess imgs_dir output_dir w)) as Hw.
  destruct (wait_results _ _) as [[[|]|e] w2]; simpl in *; [|congruence..].
  pose proof (post_pass_executed (batch imgs_dir w) output_dir rm w2) as Hp.
  destruct (post_pass _ _ _ _) as [[[]|e] w3]; simpl in *; congruence.
Qed.

Lemma listing_is_flat_witness :
  ∃ png_files,
    ["in"; "a.png"] ∈ png_files
    ∧ (["in"] // "sub" // "deep.png" ∉ png_files)
    ∧ (["in"; "C.PNG"] ∉ png_files)
    ∧ executed (trace (process_images Examples.convert ["in"] ["out"] false
                         Examples.boot).2)
      = (λ f, ["magick"; "-quality"; "75"; str f;
               str (["out"] ++ [stem f +:+ ".webp"])]) <$> png_files.
Proof.
  destruct (listing_is_flat Examples.convert ["in"] ["out"] false Examples.boot)
    as (png_files & Hiff & _ & Hflat & _ & Hexec).
  - vm_compute. reflexivity.
  - exists png_files. split; [|split; [apply Hflat | split; [|exact Hexec]]].
    + apply Hiff. exists "a.png". split; [done|].
      split; [exists (Node false 10 20)|]; vm_compute; reflexivity.
    + intros (f & Heq & _ & Hf)%Hiff.
      apply (joinpath_inj ["in"] ["in"] "C.PNG" f) in Heq as [_ <-].
      vm_compute in Hf. discriminate Hf.
Defined.
